(** * LegendDimensionModel: the legend dimension model of tui.chart

    A shallow embedding of [src/js/legends/legendDimensionModel.js] and the
    properties of its line-partitioning loop, of the label footprint and of
    the dispatch in [makeDimension]. *)

From Stdlib Require Import String Bool ZArith QArith Qround List Lia.
Import ListNotations.
Open Scope Z_scope.

Set Implicit Arguments.

(** ** JavaScript values *)

(** The numbers of this module are pixel measurements, the layout constants
    and their sums, all integers, so the double arithmetic of [+] is exact;
    the one other value that can appear is [-Infinity] ([Math.max] of no
    argument). *)
Inductive number : Type :=
| NegInfinity
| Num (z : Z).

(** [a === b] on numbers. *)
Definition number_eqb (a b : number) : bool :=
  match a, b with
  | NegInfinity, NegInfinity => true
  | Num x, Num y => x =? y
  | _, _ => false
  end.

(** [a >= b] on numbers. *)
Definition number_geb (a b : number) : bool :=
  match a, b with
  | _, NegInfinity => true
  | NegInfinity, Num _ => false
  | Num x, Num y => x >=? y
  end.

(** [Math.round(x)]: the integer nearest to [x], halves rounded up, that is
    [floor(x + 1/2)].  The argument is the exact quotient
    [labels.length / count]; the double nearest to it lies on the same side
    of every half-integer for array lengths below [2^52]. *)
Definition Math_round (x : Q) : Z := Qfloor (x + (1 # 2))%Q.

(** Truthiness of an option that is [undefined], [true] or [false]. *)
Definition truthy (o : option bool) : bool :=
  match o with
  | Some true => true
  | _ => false
  end.

(** A legend label ([Array.<string | number>] in the source; a number is
    shown through its decimal string). *)
Definition Label : Type := string.

(** ** The modules the source requires *)

(** [require('../const')]: the four layout constants the model reads. *)
Class ChartConst : Type := {
  LEGEND_CHECKBOX_WIDTH : Z;
  LEGEND_RECT_WIDTH : Z;
  LEGEND_LABEL_LEFT_PADDING : Z;
  LEGEND_AREA_PADDING : Z
}.

(** [require('../helpers/renderUtil')]: the text measurement of the DOM. *)
Class RenderUtil (LabelTheme : Type) : Type := {
  getRenderedLabelWidth : Label -> LabelTheme -> Z;
  getRenderedLabelsMaxHeight : list Label -> LabelTheme -> Z
}.

(** [require('../helpers/predicate')]. *)
Class Predicate : Type := {
  isPieTypeChart : string -> bool;
  isPieLegendAlign : option string -> bool;
  isHorizontalLegend : option string -> bool
}.

(** ** [tui.util] *)

Module tui_util.

(** [tui.util.sum(values)]: the values added up from [0]. *)
Definition sum (values : list Z) : Z := fold_left Z.add values 0.

(** [tui.util.map(obj, iteratee)].  The collection may be [undefined]
    (the [for .. in] over it runs no iteration), which gives [[]]. *)
Definition map {A B : Type} (obj : option (list A)) (iteratee : A -> B)
  : list B :=
  match obj with
  | Some arr => List.map iteratee arr
  | None => []
  end.

(** [tui.util.all(collection, condition)]. *)
Definition all {A : Type} (collection : list A) (condition : A -> bool)
  : bool :=
  forallb condition collection.

(** [tui.util.forEachArray(arr, iteratee)] with the variables the
    callback assigns threaded as a state. *)
Definition forEachArray {A S : Type} (arr : list A) (iteratee : S -> A -> S)
    (s : S) : S :=
  fold_left iteratee arr s.

(** [tui.util.max(arr)]: the greatest element of a non-empty array.  Its
    value on an empty array is not fixed by this file and is the parameter
    [maxOfEmpty] ([Math.max.apply(null, [])] is [-Infinity]). *)
Definition max (maxOfEmpty : number) (arr : list Z) : number :=
  match arr with
  | [] => maxOfEmpty
  | x :: rest => Num (fold_left Z.max rest x)
  end.

End tui_util.

(** ** The model object *)

Record LegendOptions : Type := {
  hasCheckbox : option bool;
  align : option string;
  hidden : option bool
}.

Record LegendTheme (LabelTheme : Type) : Type := {
  theme_label : LabelTheme
}.

Record Params (LabelTheme : Type) : Type := {
  params_chartType : string;
  params_chartTypes : option (list string);
  params_options : LegendOptions;
  params_theme : LegendTheme LabelTheme;
  params_legendLabels : list Label
}.

Record LegendDimensionModel (LabelTheme : Type) : Type := {
  chartType : string;
  chartTypes : list string;
  options : LegendOptions;
  theme : LegendTheme LabelTheme;
  legendLabels : list Label;
  legendCheckboxWidth : Z
}.

(** What [makeDimension] returns: an object whose fields may be absent. *)
Record Dimension : Type := {
  width : option number;
  height : option number
}.

(** The result of [_makeDividedLabelsAndMaxLineWidth]; [dividedLabels] is
    [undefined] when it was assigned from a [prevLabels] never set. *)
Record DividedLabelsAndMaxLineWidth : Type := {
  res_dividedLabels : option (list (list Label));
  res_maxLineWidth : number
}.

(** The local variables of the [do .. while] loop. *)
Record loop_state : Type := {
  divideCount : positive;
  maxLineWidth : number;
  prevMaxWidth : number;
  dividedLabels : option (list (list Label));
  prevLabels : option (list (list Label))
}.

(** How one run of the loop body ends: by [break], by a true loop
    condition, or by a false one. *)
Inductive flow : Type := Broke | Again | Leave.

Section Model.

Context {LabelTheme : Type}.
Context {chartConst : ChartConst}.
Context {renderUtil : RenderUtil LabelTheme}.
Context {predicate : Predicate}.
Variable maxOfEmpty : number.

Definition init (params : Params LabelTheme) : LegendDimensionModel LabelTheme :=
  {| chartType := params_chartType params;
     chartTypes := match params_chartTypes params with
                   | Some types => types
                   | None => [params_chartType params]
                   end;
     options := params_options params;
     theme := params_theme params;
     legendLabels := params_legendLabels params;
     legendCheckboxWidth :=
       match hasCheckbox (params_options params) with
       | Some false => 0
       | _ => LEGEND_CHECKBOX_WIDTH
       end |}.

Variable this : LegendDimensionModel LabelTheme.

Definition _makeLegendWidth (labelWidth : Z) : Z :=
  labelWidth + legendCheckboxWidth this + LEGEND_RECT_WIDTH +
  LEGEND_LABEL_LEFT_PADDING + LEGEND_AREA_PADDING.

Definition _calculateLegendsWidthSum (labels : list Label)
    (labelTheme : LabelTheme) : Z :=
  tui_util.sum (tui_util.map (Some labels) (fun label =>
    _makeLegendWidth (getRenderedLabelWidth label labelTheme))).

(** The callback of [_divideLegendLabels] on its two variables
    [results] and [temp]. *)
Definition divide_step (limitCount : Z)
    (st : list (list Label) * list Label) (label : Label)
  : list (list Label) * list Label :=
  let (results, temp) := st in
  if Z.of_nat (length temp) <? limitCount
  then (results, temp ++ [label])
  else (results ++ [temp], [label]).

(** [Math.round(labels.length / count)], the target size of a group.  The
    division count is one of the 1, 2, 3, ... the loop passes. *)
Definition limitCount_of (labels : list Label) (count : positive) : Z :=
  Math_round (Z.of_nat (length labels) # count).

Definition _divideLegendLabels (labels : list Label) (count : positive)
  : list (list Label) :=
  let limitCount := limitCount_of labels count in
  let (results, temp) :=
    tui_util.forEachArray labels (divide_step limitCount) ([], []) in
  match temp with
  | [] => results
  | _ :: _ => results ++ [temp]
  end.

Definition _getMaxLineWidth (dividedLabels : list (list Label))
    (labelTheme : LabelTheme) : number :=
  let lineWidths := tui_util.map (Some dividedLabels) (fun _labels =>
    _calculateLegendsWidthSum _labels labelTheme) in
  tui_util.max maxOfEmpty lineWidths.

(** The state in which the [do .. while] loop is entered. *)
Definition loop_init : loop_state :=
  {| divideCount := 1%positive;
     maxLineWidth := Num 0;
     prevMaxWidth := Num 0;
     dividedLabels := None;
     prevLabels := None |}.

(** One run of the body of the [do .. while] loop, with the test of the
    loop condition that follows it. *)
Definition loop_body (labels : list Label) (chartWidth : Z)
    (labelTheme : LabelTheme) (st : loop_state) : flow * loop_state :=
  let dividedLabels' := _divideLegendLabels labels (divideCount st) in
  let maxLineWidth' := _getMaxLineWidth dividedLabels' labelTheme in
  if number_eqb (prevMaxWidth st) maxLineWidth' then
    (Broke,
     {| divideCount := divideCount st;
        maxLineWidth := maxLineWidth';
        prevMaxWidth := prevMaxWidth st;
        dividedLabels := prevLabels st;
        prevLabels := prevLabels st |})
  else
    (if number_geb maxLineWidth' (Num chartWidth) then Again else Leave,
     {| divideCount := Pos.succ (divideCount st);
        maxLineWidth := maxLineWidth';
        prevMaxWidth := maxLineWidth';
        dividedLabels := Some dividedLabels';
        prevLabels := Some dividedLabels' |}).

(** The [do .. while] loop, run for at most [fuel] rounds; [None] when
    the rounds are used up before the loop is left. *)
Fixpoint do_while (fuel : nat) (labels : list Label) (chartWidth : Z)
    (labelTheme : LabelTheme) (st : loop_state) : option loop_state :=
  match fuel with
  | O => None
  | S fuel' =>
      match loop_body labels chartWidth labelTheme st with
      | (Again, st') => do_while fuel' labels chartWidth labelTheme st'
      | (_, st') => Some st'
      end
  end.

(** The rounds given to the loop: two more than there are labels (the
    loop never needs more, see [do_while_terminates]). *)
Definition loop_fuel (labels : list Label) : nat := S (S (List.length labels)).

Definition _makeDividedLabelsAndMaxLineWidth (labels : list Label)
    (chartWidth : Z) (labelTheme : LabelTheme)
  : option DividedLabelsAndMaxLineWidth :=
  match do_while (loop_fuel labels) labels chartWidth labelTheme loop_init with
  | Some st =>
      Some {| res_dividedLabels := dividedLabels st;
              res_maxLineWidth := maxLineWidth st |}
  | None => None
  end.

Definition _calculateHorizontalLegendHeight
    (dividedLabels : option (list (list Label))) (labelTheme : LabelTheme)
  : Z :=
  tui_util.sum (tui_util.map dividedLabels (fun labels =>
    getRenderedLabelsMaxHeight labels labelTheme)).

Definition _makeHorizontalDimension (chartWidth : Z) : option Dimension :=
  let labelTheme := theme_label (theme this) in
  match _makeDividedLabelsAndMaxLineWidth (legendLabels this) chartWidth
          labelTheme with
  | Some labelsAndMaxWidth =>
      let horizontalLegendHeight :=
        _calculateHorizontalLegendHeight
          (res_dividedLabels labelsAndMaxWidth) labelTheme in
      let legendHeight := horizontalLegendHeight + LEGEND_AREA_PADDING * 2 in
      Some {| width := Some (res_maxLineWidth labelsAndMaxWidth);
              height := Some (Num legendHeight) |}
  | None => None
  end.

(** Modelled from the spec: [renderUtil.getRenderedLabelsMaxWidth], whose
    code is not in this file.  It is the rendered width of "the single
    widest label" of the sequence, each label measured by
    [getRenderedLabelWidth]; for no label at all it is taken to be [0]. *)
Definition getRenderedLabelsMaxWidth (labels : list Label)
    (labelTheme : LabelTheme) : Z :=
  match labels with
  | [] => 0
  | label :: rest =>
      fold_left Z.max
        (List.map (fun l => getRenderedLabelWidth l labelTheme) rest)
        (getRenderedLabelWidth label labelTheme)
  end.

Definition _makeVerticalDimension : Dimension :=
  let maxLabelWidth :=
    getRenderedLabelsMaxWidth (legendLabels this) (theme_label (theme this)) in
  let legendWidth := _makeLegendWidth maxLabelWidth in
  {| width := Some (Num legendWidth);
     height := Some (Num 0) |}.

Definition _isSkipLegend : bool :=
  let isPieTypeCharts := tui_util.all (chartTypes this) isPieTypeChart in
  let isPieLegendAlign' := isPieLegendAlign (align (options this)) in
  (isPieTypeCharts && isPieLegendAlign') || truthy (hidden (options this)).

(** [None] only if the partitioning loop were to run out of rounds, which
    it never does ([do_while_terminates]). *)
Definition makeDimension (chartWidth : Z) : option Dimension :=
  if _isSkipLegend then
    Some {| width := Some (Num 0); height := None |}
  else if isHorizontalLegend (align (options this)) then
    _makeHorizontalDimension chartWidth
  else
    Some _makeVerticalDimension.

End Model.

(** ** The rounds of the loop *)

Section Rounds.

Context {LabelTheme : Type}.
Context {chartConst : ChartConst}.
Context {renderUtil : RenderUtil LabelTheme}.
Variable maxOfEmpty : number.
Variable this : LegendDimensionModel LabelTheme.
Variable labels : list Label.
Variable chartWidth : Z.
Variable labelTheme : LabelTheme.

(** The maximum line width computed at division count [k]. *)
Definition lineWidthAt (k : positive) : number :=
  _getMaxLineWidth maxOfEmpty this (_divideLegendLabels labels k) labelTheme.

(** The states in which a round of the loop starts: the initial one, and
    the one a round leaves when the loop condition sends it round again. *)
Inductive loop_reaches : loop_state -> Prop :=
| reaches_init : loop_reaches loop_init
| reaches_again (st st' : loop_state) :
    loop_reaches st ->
    loop_body maxOfEmpty this labels chartWidth labelTheme st = (Again, st') ->
    loop_reaches st'.

(** What the variables hold when a round starts at division count
    [divideCount st]: nothing before the first round, the partitioning and
    the width of the round before otherwise. *)
Definition loop_invariant (st : loop_state) : Prop :=
  (divideCount st = 1%positive /\
   prevMaxWidth st = Num 0 /\ prevLabels st = None) \/
  (exists k : positive,
     divideCount st = Pos.succ k /\
     prevMaxWidth st = lineWidthAt k /\
     prevLabels st = Some (_divideLegendLabels labels k)).

(** The greatest division count at which a round can start. *)
Definition lastCount : positive :=
  Pos.succ (Pos.of_nat (List.length labels)).

End Rounds.

(** The sum of the heights of the lines, as the specification words it. *)
Definition sum_of_line_heights {LabelTheme : Type}
    {renderUtil : RenderUtil LabelTheme}
    (groups : list (list Label)) (labelTheme : LabelTheme) : Z :=
  fold_right (fun group acc => getRenderedLabelsMaxHeight group labelTheme + acc)
    0 groups.

(** ** Worked examples: a measurement given by a table *)

Module Examples.

(** Layout constants that add 10 to a text width (4 of them the checkbox). *)
Definition example_const : ChartConst :=
  {| LEGEND_CHECKBOX_WIDTH := 4;
     LEGEND_RECT_WIDTH := 3;
     LEGEND_LABEL_LEFT_PADDING := 1;
     LEGEND_AREA_PADDING := 2 |}.

Fixpoint table_width (table : list (string * Z)) (label : Label) : Z :=
  match table with
  | [] => 0
  | (name, w) :: table' =>
      if String.eqb name label then w else table_width table' label
  end.

(** Text widths read from a table; every line of text is 15 high. *)
Definition example_render (table : list (string * Z)) : RenderUtil unit :=
  {| getRenderedLabelWidth := fun label _ => table_width table label;
     getRenderedLabelsMaxHeight := fun labels _ =>
       match labels with
       | [] => 0
       | _ :: _ => 15
       end |}.

Definition example_predicate : Predicate :=
  {| isPieTypeChart := fun chartType => String.eqb chartType "pie";
     isPieLegendAlign := fun align =>
       match align with
       | Some a => String.eqb a "center" || String.eqb a "outer"
       | None => false
       end;
     isHorizontalLegend := fun align =>
       match align with
       | Some a => String.eqb a "top" || String.eqb a "bottom"
       | None => false
       end |}.

Definition example_options (align : string) (hidden : option bool)
  : LegendOptions :=
  {| hasCheckbox := None; align := Some align; hidden := hidden |}.

Definition example_model (chartType : string) (options : LegendOptions)
    (labels : list Label) : LegendDimensionModel unit :=
  @init unit example_const
    {| params_chartType := chartType;
       params_chartTypes := None;
       params_options := options;
       params_theme := {| theme_label := tt |};
       params_legendLabels := labels |}.

(** The parameters [example_model] hands to [init]. *)
Definition example_params (chartType : string) (options : LegendOptions)
    (labels : list Label) : Params unit :=
  {| params_chartType := chartType;
     params_chartTypes := None;
     params_options := options;
     params_theme := {| theme_label := tt |};
     params_legendLabels := labels |}.

(** Three labels whose footprints are 20, 20 and 60. *)
Definition three_labels : list Label := ["a"; "b"; "c"]%string.
Definition three_widths : list (string * Z) :=
  [("a", 10); ("b", 10); ("c", 50)]%string.

(** One label whose footprint is 100. *)
Definition wide_label : list Label := ["wide"]%string.
Definition wide_width : list (string * Z) := [("wide", 90)]%string.

(** The labels ["A"; "BB"; "CCC"] with footprints 10, 15 and 22. *)
Definition abc_labels : list Label := ["A"; "BB"; "CCC"]%string.
Definition abc_widths : list (string * Z) :=
  [("A", 0); ("BB", 5); ("CCC", 12)]%string.

(** Five labels, for the division alone. *)
Definition five_labels : list Label := ["a"; "b"; "c"; "d"; "e"]%string.
Definition four_labels : list Label := ["a"; "b"; "c"; "d"]%string.

(** A bar chart with its legend on top (horizontal layout). *)
Definition top_model (labels : list Label) : LegendDimensionModel unit :=
  example_model "bar" (example_options "top" None) labels.

(** A bar chart with its legend on the right (vertical layout). *)
Definition right_model (labels : list Label) : LegendDimensionModel unit :=
  example_model "bar" (example_options "right" None) labels.

(** A bar chart whose legend is hidden. *)
Definition hidden_model (labels : list Label) : LegendDimensionModel unit :=
  example_model "bar" (example_options "top" (Some true)) labels.

(** A pie chart with its legend in the centre. *)
Definition pie_model (labels : list Label) : LegendDimensionModel unit :=
  example_model "pie" (example_options "center" None) labels.

(** The loop states of the three-label example when its second and third
    rounds start. *)
Definition three_round2 : loop_state :=
  {| divideCount := 2;
     maxLineWidth := Num 100;
     prevMaxWidth := Num 100;
     dividedLabels := Some [three_labels];
     prevLabels := Some [three_labels] |}.

Definition three_round3 : loop_state :=
  {| divideCount := 3;
     maxLineWidth := Num 60;
     prevMaxWidth := Num 60;
     dividedLabels := Some [["a"; "b"]; ["c"]]%string;
     prevLabels := Some [["a"; "b"]; ["c"]]%string |}.

(** The loop state of the one-label example when its second round starts. *)
Definition wide_round2 : loop_state :=
  {| divideCount := 2;
     maxLineWidth := Num 100;
     prevMaxWidth := Num 100;
     dividedLabels := Some [wide_label];
     prevLabels := Some [wide_label] |}.

End Examples.

(** ** Partitioning: every label lands in one group, in order *)

Section DivideLegendLabels.

(** While the labels are walked, the groups closed so far followed by
    the open group and the labels still to come spell the whole input. *)
Lemma divide_step_concat (limitCount : Z) (rest : list Label) :
  forall (results : list (list Label)) (temp : list Label),
    concat (fst (fold_left (divide_step limitCount) rest (results, temp))) ++
    snd (fold_left (divide_step limitCount) rest (results, temp)) =
    concat results ++ temp ++ rest.
Proof.
  induction rest as [|l rest IH]; intros results temp; cbn [fold_left].
  - cbn. now rewrite app_nil_r.
  - unfold divide_step at 2 4.
    destruct (Z.of_nat (List.length temp) <? limitCount).
    + rewrite IH. now rewrite <- !app_assoc.
    + rewrite IH, concat_app. cbn. rewrite app_nil_r.
      now rewrite <- !app_assoc.
Qed.

(** The last step of [_divideLegendLabels] keeps the open group when it
    holds a label. *)
Lemma divideLegendLabels_unfold (labels : list Label) (count : positive) :
  _divideLegendLabels labels count =
  let st := fold_left (divide_step (limitCount_of labels count)) labels ([], []) in
  match snd st with
  | [] => fst st
  | _ :: _ => fst st ++ [snd st]
  end.
Proof.
  unfold _divideLegendLabels, tui_util.forEachArray.
  now destruct (fold_left _ labels ([], [])).
Qed.

Lemma divideLegendLabels_concat (labels : list Label) (count : positive) :
  concat (_divideLegendLabels labels count) = labels.
Proof.
  rewrite divideLegendLabels_unfold. cbv zeta.
  pose proof (divide_step_concat (limitCount_of labels count) labels [] [])
    as H.
  cbn [concat app] in H.
  destruct (snd (fold_left _ labels ([], []))) as [|l temp] eqn:E.
  - now rewrite app_nil_r in H.
  - rewrite concat_app. cbn [concat]. now rewrite app_nil_r.
Qed.

(** C3: the groups of [_divideLegendLabels], concatenated in order, are
    the input labels, and their lengths add up to the number of labels:
    every label lands in exactly one group, in the original order. *)
Theorem divideLegendLabels_partition (labels : list Label) (count : positive) :
  concat (_divideLegendLabels labels count) = labels /\
  list_sum (List.map (@List.length Label) (_divideLegendLabels labels count)) =
  List.length labels.
Proof.
  split; [apply divideLegendLabels_concat|].
  rewrite <- length_concat. now rewrite divideLegendLabels_concat.
Qed.

(** [Math.round(n / k)] in integer arithmetic. *)
Lemma Math_round_quotient (n : Z) (k : positive) :
  Math_round (n # k) = (2 * n + Z.pos k) / (2 * Z.pos k).
Proof.
  unfold Math_round, Qplus, Qfloor. cbn [Qnum Qden].
  f_equal; lia.
Qed.

Lemma limitCount_of_quotient (labels : list Label) (count : positive) :
  limitCount_of labels count =
  (2 * Z.of_nat (List.length labels) + Z.pos count) / (2 * Z.pos count).
Proof. apply Math_round_quotient. Qed.

(** The target size is at least one exactly when the division count is
    at most twice the number of labels. *)
Lemma limitCount_of_pos (labels : list Label) (count : positive) :
  1 <= limitCount_of labels count <->
  Z.pos count <= 2 * Z.of_nat (List.length labels).
Proof.
  rewrite limitCount_of_quotient.
  set (n := Z.of_nat (List.length labels)). set (k := Z.pos count).
  assert (0 < k) by (subst k; lia).
  split; intros Hle.
  - destruct (Z.le_gt_cases k (2 * n)) as [|Hgt]; [assumption|].
    rewrite Z.div_small in Hle; subst n; lia.
  - apply Z.div_le_lower_bound; lia.
Qed.

(** With a target size of at least one, every closed group is full, the
    open group is never over-full, and it holds a label as soon as one
    was read. *)
Lemma divide_step_groups (limitCount : Z) (rest : list Label) :
  1 <= limitCount ->
  forall (results : list (list Label)) (temp : list Label),
    Forall (fun g => Z.of_nat (List.length g) = limitCount) results ->
    Z.of_nat (List.length temp) <= limitCount ->
    let st := fold_left (divide_step limitCount) rest (results, temp) in
    Forall (fun g => Z.of_nat (List.length g) = limitCount) (fst st) /\
    Z.of_nat (List.length (snd st)) <= limitCount /\
    (temp <> [] \/ rest <> [] -> snd st <> []).
Proof.
  intros Hlim. induction rest as [|l rest IH]; intros results temp Hres Htemp.
  - cbn. repeat split; auto. intros [H|H]; [exact H | congruence].
  - cbn [fold_left]. unfold divide_step at 2 4 6.
    destruct (Z.ltb_spec (Z.of_nat (List.length temp)) limitCount) as [Hlt|Hge].
    + destruct (IH results (temp ++ [l])) as (H1 & H2 & H3); auto.
      { rewrite length_app. cbn. lia. }
      repeat split; auto. intros _. apply H3. left.
      destruct temp; discriminate.
    + destruct (IH (results ++ [temp]) [l]) as (H1 & H2 & H3).
      { apply Forall_app. split; auto. constructor; auto. lia. }
      { cbn. lia. }
      repeat split; auto. intros _. apply H3. left. discriminate.
Qed.

Lemma length_concat_uniform (limitCount : Z) (groups : list (list Label)) :
  Forall (fun g => Z.of_nat (List.length g) = limitCount) groups ->
  Z.of_nat (List.length (concat groups)) =
  limitCount * Z.of_nat (List.length groups).
Proof.
  induction 1 as [|g groups Hg _ IH]; cbn [concat List.length].
  - lia.
  - rewrite length_app. lia.
Qed.

(** C4 (amended): with a division count of at most twice the number of
    labels, the target size [round(len / count)] is at least one and
    [_divideLegendLabels] cuts the labels, in order, into groups of which
    every one but the last holds exactly the target size and the last
    holds between one label and the target size; so there are
    [ceil(len / target)] groups, which need not be [count]; and for
    [count = 1] the result is the single group of all labels. *)
Theorem divideLegendLabels_groups (labels : list Label) (count : positive) :
  Z.pos count <= 2 * Z.of_nat (List.length labels) ->
  let limitCount := limitCount_of labels count in
  exists (front : list (list Label)) (last : list Label),
    _divideLegendLabels labels count = front ++ [last] /\
    concat (front ++ [last]) = labels /\
    Forall (fun g => Z.of_nat (List.length g) = limitCount) front /\
    1 <= Z.of_nat (List.length last) <= limitCount /\
    Z.of_nat (List.length (_divideLegendLabels labels count)) =
      (Z.of_nat (List.length labels) + limitCount - 1) / limitCount /\
    (count = 1%positive -> _divideLegendLabels labels count = [labels]).
Proof.
  intros Hcount limitCount.
  assert (Hlim : 1 <= limitCount) by now apply limitCount_of_pos.
  assert (Hne : labels <> []) by (destruct labels; [cbn in Hcount; lia | discriminate]).
  pose proof (divideLegendLabels_concat labels count) as Hconcat.
  assert (Hnil : Forall (fun g : list Label =>
                           Z.of_nat (List.length g) = limitCount) [])
    by constructor.
  assert (Hzero : Z.of_nat (List.length (@nil Label)) <= limitCount)
    by (change (0 <= limitCount); lia).
  destruct (@divide_step_groups limitCount labels Hlim [] [] Hnil Hzero)
    as (Hfull & Hopen & Hlast).
  specialize (Hlast (or_intror Hne)).
  rewrite divideLegendLabels_unfold in Hconcat |- *. cbv zeta in *.
  fold limitCount in Hconcat |- *.
  destruct (fold_left (divide_step limitCount) labels ([], [])) as [front temp].
  cbn [fst snd] in *.
  destruct temp as [|l temp]; [congruence|].
  set (last := l :: temp) in *.
  assert (Hlen : Z.of_nat (List.length labels) =
                 limitCount * Z.of_nat (List.length front) +
                 Z.of_nat (List.length last)).
  { rewrite <- Hconcat at 1. rewrite concat_app, length_app. cbn [concat].
    rewrite app_nil_r, Nat2Z.inj_add.
    now rewrite (length_concat_uniform Hfull). }
  assert (Hone : 1 <= Z.of_nat (List.length last)) by (subst last; cbn; lia).
  exists front, last. repeat split; auto.
  - rewrite length_app. cbn [List.length].
    apply Z.div_unique with (r := Z.of_nat (List.length last) - 1); lia.
  - intros ->. unfold limitCount in *.
    rewrite limitCount_of_quotient in *.
    replace ((2 * Z.of_nat (List.length labels) + 1) / (2 * 1))
      with (Z.of_nat (List.length labels)) in *
      by (apply Z.div_unique with (r := 1); lia).
    destruct front as [|g front].
    + cbn in Hconcat |- *. rewrite app_nil_r in Hconcat. now subst.
    + cbn [List.length] in Hlen. nia.
Qed.

End DivideLegendLabels.

(** ** The partitioning loop: rounds, termination, result *)

Lemma number_eqb_eq (a b : number) : number_eqb a b = true <-> a = b.
Proof.
  destruct a as [|x], b as [|y]; cbn; split; try congruence; try reflexivity.
  - intros H. apply Z.eqb_eq in H. now subst.
  - intros [= ->]. apply Z.eqb_refl.
Qed.

Lemma number_eqb_refl (a : number) : number_eqb a a = true.
Proof. now apply number_eqb_eq. Qed.

(** The division count matters to [_divideLegendLabels] through the target
    size only. *)
Lemma divideLegendLabels_limit (labels : list Label) (k k' : positive) :
  limitCount_of labels k = limitCount_of labels k' ->
  _divideLegendLabels labels k = _divideLegendLabels labels k'.
Proof. unfold _divideLegendLabels. now intros ->. Qed.

(** One group per label is reached at a division count equal to the number
    of labels, and one more division changes nothing. *)
Lemma divideLegendLabels_lastCount (labels : list Label) :
  _divideLegendLabels labels (lastCount labels) =
  _divideLegendLabels labels (Pos.of_nat (List.length labels)).
Proof.
  apply divideLegendLabels_limit. unfold lastCount.
  rewrite !limitCount_of_quotient.
  destruct labels as [|l labels]; [reflexivity|].
  set (n := List.length (l :: labels)).
  assert (Hn : (1 <= n)%nat) by (subst n; cbn; lia).
  assert (Hp : Z.pos (Pos.of_nat n) = Z.of_nat n).
  { rewrite <- positive_nat_Z, Nat2Pos.id; lia. }
  rewrite Pos2Z.inj_succ, Hp.
  transitivity 1.
  - symmetry. apply Z.div_unique with (r := Z.of_nat n - 1); lia.
  - apply Z.div_unique with (r := Z.of_nat n); lia.
Qed.

Lemma sum_fold_right (values : list Z) :
  tui_util.sum values = fold_right Z.add 0 values.
Proof.
  unfold tui_util.sum.
  assert (H : forall a, fold_left Z.add values a = a + fold_right Z.add 0 values).
  { induction values as [|v values IH]; intros a; cbn.
    - lia.
    - rewrite IH. lia. }
  now rewrite H.
Qed.

Lemma fold_right_add_map {A : Type} (f : A -> Z) (l : list A) :
  fold_right Z.add 0 (List.map f l) = fold_right (fun a acc => f a + acc) 0 l.
Proof.
  induction l as [|a l IH]; cbn; [reflexivity|]. now rewrite IH.
Qed.

(** The running maximum is an element of the list and bounds all of it. *)
Lemma fold_max_greatest (rest : list Z) :
  forall x : Z,
    In (fold_left Z.max rest x) (x :: rest) /\
    Forall (fun y => y <= fold_left Z.max rest x) (x :: rest).
Proof.
  induction rest as [|y rest IH]; intros x; cbn [fold_left].
  - split; [now left | constructor; [lia | constructor]].
  - destruct (IH (Z.max x y)) as [Hin Hall].
    inversion Hall as [|? ? Hmax Hrest]; subst.
    split.
    + destruct Hin as [Hin|Hin]; [|right; right; exact Hin].
      destruct (Z.max_spec x y) as [[_ E]|[_ E]].
      * right. left. etransitivity; [symmetry; exact E | exact Hin].
      * left. etransitivity; [symmetry; exact E | exact Hin].
    + constructor; [lia|]. constructor; [lia|exact Hrest].
Qed.

Section LoopProperties.

Context {LabelTheme : Type}.
Context {chartConst : ChartConst}.
Context {renderUtil : RenderUtil LabelTheme}.
Variable maxOfEmpty : number.
Variable this : LegendDimensionModel LabelTheme.
Variable labels : list Label.
Variable chartWidth : Z.
Variable labelTheme : LabelTheme.

#[local] Abbreviation body := (loop_body maxOfEmpty this labels chartWidth labelTheme).
#[local] Abbreviation run fuel := (do_while maxOfEmpty this fuel labels chartWidth labelTheme).
#[local] Abbreviation reaches := (loop_reaches maxOfEmpty this labels chartWidth labelTheme).
#[local] Abbreviation invariant := (loop_invariant maxOfEmpty this labels labelTheme).
#[local] Abbreviation widthAt := (lineWidthAt maxOfEmpty this labels labelTheme).

Lemma lineWidthAt_lastCount :
  widthAt (lastCount labels) = widthAt (Pos.of_nat (List.length labels)).
Proof. unfold lineWidthAt. now rewrite divideLegendLabels_lastCount. Qed.

(** What a round does, by the comparison with the previous width. *)
Lemma loop_body_break (st : loop_state) :
  prevMaxWidth st = widthAt (divideCount st) ->
  body st =
  (Broke,
   {| divideCount := divideCount st;
      maxLineWidth := widthAt (divideCount st);
      prevMaxWidth := prevMaxWidth st;
      dividedLabels := prevLabels st;
      prevLabels := prevLabels st |}).
Proof.
  intros H. unfold loop_body. fold (widthAt (divideCount st)).
  now rewrite H, number_eqb_refl.
Qed.

Lemma loop_body_again (st st' : loop_state) :
  body st = (Again, st') ->
  prevMaxWidth st <> widthAt (divideCount st) /\
  number_geb (widthAt (divideCount st)) (Num chartWidth) = true /\
  st' = {| divideCount := Pos.succ (divideCount st);
           maxLineWidth := widthAt (divideCount st);
           prevMaxWidth := widthAt (divideCount st);
           dividedLabels := Some (_divideLegendLabels labels (divideCount st));
           prevLabels := Some (_divideLegendLabels labels (divideCount st)) |}.
Proof.
  unfold loop_body. fold (widthAt (divideCount st)).
  destruct (number_eqb (prevMaxWidth st) (widthAt (divideCount st))) eqn:E.
  - discriminate.
  - destruct (number_geb (widthAt (divideCount st)) (Num chartWidth)) eqn:G.
    + intros [= <-]. repeat split; auto.
      intros H. apply number_eqb_eq in H. congruence.
    + discriminate.
Qed.

Lemma loop_invariant_init : invariant loop_init.
Proof. left. cbn. auto. Qed.

Lemma loop_invariant_again (st st' : loop_state) :
  body st = (Again, st') -> invariant st'.
Proof.
  intros H. apply loop_body_again in H. destruct H as (_ & _ & ->).
  right. exists (divideCount st). cbn. auto.
Qed.

Lemma loop_reaches_invariant (st : loop_state) : reaches st -> invariant st.
Proof.
  induction 1 as [|st st' _ _ Hbody].
  - apply loop_invariant_init.
  - eapply loop_invariant_again; eauto.
Qed.

(** A round that starts at the last division count ends in [break]. *)
Lemma loop_body_lastCount (st : loop_state) :
  invariant st -> divideCount st = lastCount labels ->
  fst (body st) = Broke.
Proof.
  intros [(H1 & _) | (k & Hk & Hprev & _)] Hlast.
  - unfold lastCount in Hlast. rewrite H1 in Hlast. lia.
  - rewrite loop_body_break; [reflexivity|].
    rewrite Hprev, Hlast, lineWidthAt_lastCount. f_equal.
    unfold lastCount in Hlast. rewrite Hk in Hlast.
    now apply Pos.succ_inj in Hlast.
Qed.

(** No round starts at a division count beyond the last one. *)
Lemma loop_reaches_bound (st : loop_state) :
  reaches st -> (divideCount st <= lastCount labels)%positive.
Proof.
  induction 1 as [|st st' Hreach IH Hbody].
  - cbn. unfold lastCount. lia.
  - destruct (Pos.eq_dec (divideCount st) (lastCount labels)) as [E|NE].
    + pose proof (loop_body_lastCount (loop_reaches_invariant Hreach) E) as HB.
      rewrite Hbody in HB. discriminate.
    + apply loop_body_again in Hbody. destruct Hbody as (_ & _ & ->).
      cbn. lia.
Qed.

(** A round leaves the division count as it is or adds one to it. *)
Lemma loop_body_count (st st' : loop_state) (f : flow) :
  body st = (f, st') ->
  divideCount st' = divideCount st \/
  divideCount st' = Pos.succ (divideCount st).
Proof.
  unfold loop_body.
  repeat match goal with
         | |- context [if ?c then _ else _] => destruct c
         end; intros [= <- <-]; cbn; auto.
Qed.

(** More rounds than needed change nothing. *)
Lemma do_while_more_fuel (fuel extra : nat) (st r : loop_state) :
  run fuel st = Some r -> run (fuel + extra)%nat st = Some r.
Proof.
  revert st. induction fuel as [|fuel IH]; intros st; cbn [do_while Nat.add].
  - discriminate.
  - destruct (body st) as [[| |] st']; auto.
Qed.

Lemma do_while_deterministic (fuel fuel' : nat) (st r r' : loop_state) :
  run fuel st = Some r -> run fuel' st = Some r' -> r = r'.
Proof.
  intros H H'.
  apply do_while_more_fuel with (extra := fuel') in H.
  apply do_while_more_fuel with (extra := fuel) in H'.
  rewrite Nat.add_comm in H'. congruence.
Qed.

(** From a state at division count [k] the loop is left within
    [lastCount - k + 1] rounds, at a division count of at most
    [lastCount]. *)
Lemma do_while_from (d : nat) :
  forall st : loop_state,
    invariant st ->
    (Pos.to_nat (divideCount st) + d = Pos.to_nat (lastCount labels))%nat ->
    exists r : loop_state,
      run (S d) st = Some r /\
      (divideCount r <= lastCount labels)%positive.
Proof.
  induction d as [|d IH]; intros st Hinv Hd.
  - assert (E : divideCount st = lastCount labels) by lia.
    pose proof (loop_body_lastCount Hinv E) as HB.
    cbn [do_while]. destruct (body st) as [[| |] st'] eqn:Hbody;
      cbn in HB; try discriminate.
    exists st'. split; [reflexivity|].
    destruct Hinv as [(H1 & _) | (k & Hk & Hprev & _)].
    + unfold lastCount in E. rewrite H1 in E. lia.
    + rewrite loop_body_break in Hbody.
      * injection Hbody as <-. cbn. lia.
      * rewrite Hprev, E, lineWidthAt_lastCount. f_equal.
        unfold lastCount in E. rewrite Hk in E. now apply Pos.succ_inj in E.
  - cbn [do_while].
    destruct (body st) as [[| |] st'] eqn:Hbody.
    + exists st'. split; [reflexivity|].
      pose proof (loop_body_count _ Hbody). lia.
    + apply IH.
      * eapply loop_invariant_again; eauto.
      * apply loop_body_again in Hbody. destruct Hbody as (_ & _ & ->).
        cbn [divideCount]. lia.
    + exists st'. split; [reflexivity|].
      pose proof (loop_body_count _ Hbody). lia.
Qed.

(** The rounds [loop_fuel] grants are enough. *)
Lemma do_while_terminates :
  exists r : loop_state,
    run (loop_fuel labels) loop_init = Some r /\
    (divideCount r <= lastCount labels)%positive.
Proof.
  destruct (@do_while_from (Pos.to_nat (lastCount labels) - 1) loop_init
              loop_invariant_init) as (r & Hr & Hle).
  { cbn [divideCount loop_init]. lia. }
  exists r. split; [|exact Hle].
  assert (Hfuel : exists extra,
             loop_fuel labels = (S (Pos.to_nat (lastCount labels) - 1) + extra)%nat).
  { unfold loop_fuel, lastCount. rewrite Pos2Nat.inj_succ.
    destruct labels as [|l ls].
    - exists 0%nat. reflexivity.
    - exists 1%nat. rewrite Nat2Pos.id by discriminate. cbn [List.length]. lia. }
  destruct Hfuel as (extra & ->).
  now apply do_while_more_fuel.
Qed.

(** A state the loop reaches leads to the same final state as the start. *)
Lemma loop_reaches_run (st : loop_state) :
  reaches st ->
  forall (fuel : nat) (r : loop_state),
    run fuel st = Some r ->
    exists fuel' : nat, run fuel' loop_init = Some r.
Proof.
  induction 1 as [|st st' _ IH Hbody]; intros fuel r Hrun.
  - now exists fuel.
  - apply (IH (S fuel)). cbn [do_while]. now rewrite Hbody.
Qed.

Lemma makeDividedLabelsAndMaxLineWidth_run (fuel : nat) (r : loop_state) :
  run fuel loop_init = Some r ->
  _makeDividedLabelsAndMaxLineWidth maxOfEmpty this labels chartWidth labelTheme =
  Some {| res_dividedLabels := dividedLabels r;
          res_maxLineWidth := maxLineWidth r |}.
Proof.
  intros Hrun. unfold _makeDividedLabelsAndMaxLineWidth.
  destruct do_while_terminates as (r0 & Hr0 & _).
  rewrite Hr0.
  assert (E : r0 = r) by (eapply do_while_deterministic; eassumption).
  now rewrite E.
Qed.

(** Every round stores the width it computed, so the width the loop ends
    with is the one computed at some division count. *)
Lemma loop_body_width (st st' : loop_state) (f : flow) :
  body st = (f, st') -> maxLineWidth st' = widthAt (divideCount st).
Proof.
  unfold loop_body. fold (widthAt (divideCount st)).
  repeat match goal with
         | |- context [if ?c then _ else _] => destruct c
         end; intros [= <- <-]; reflexivity.
Qed.

Lemma do_while_width (fuel : nat) :
  forall st r : loop_state,
    run fuel st = Some r -> exists k : positive, maxLineWidth r = widthAt k.
Proof.
  induction fuel as [|fuel IH]; intros st r; cbn [do_while].
  - discriminate.
  - destruct (body st) as [[| |] st'] eqn:Hbody.
    + intros [= <-]. eexists. eapply loop_body_width; eauto.
    + apply IH.
    + intros [= <-]. eexists. eapply loop_body_width; eauto.
Qed.

(** With labels whose footprints are all positive, the width computed at
    any division count is a positive number. *)
Lemma lineWidthAt_positive (k : positive) :
  labels <> [] ->
  (forall label : Label,
     In label labels ->
     0 < _makeLegendWidth this (getRenderedLabelWidth label labelTheme)) ->
  exists w : Z, widthAt k = Num w /\ 0 < w.
Proof.
  intros Hne Hpos.
  pose proof (divideLegendLabels_concat labels k) as Hconcat.
  assert (Hgroup : exists g l, In g (_divideLegendLabels labels k) /\ In l g).
  { destruct labels as [|l ls]; [congruence|].
    assert (Hin : In l (concat (_divideLegendLabels (l :: ls) k)))
      by (rewrite Hconcat; now left).
    apply in_concat in Hin. destruct Hin as (g & Hg & Hl). eauto. }
  destruct Hgroup as (g & l & Hg & Hl).
  assert (Hsum : forall g' : list Label,
             (forall l', In l' g' -> In l' labels) ->
             0 <= _calculateLegendsWidthSum this g' labelTheme /\
             (g' <> [] -> 0 < _calculateLegendsWidthSum this g' labelTheme)).
  { intros g' Hsub. unfold _calculateLegendsWidthSum, tui_util.map.
    rewrite sum_fold_right.
    induction g' as [|l' g' IH]; cbn [List.map fold_right].
    - split; [lia | congruence].
    - destruct IH as [IH _]; [intros; apply Hsub; now right|].
      pose proof (Hpos l' (Hsub l' (or_introl eq_refl))).
      split; [lia | intros _; lia]. }
  assert (Hgsum : 0 < _calculateLegendsWidthSum this g labelTheme).
  { apply Hsum; [|destruct g; [contradiction | discriminate]].
    intros l' Hl'. rewrite <- Hconcat. apply in_concat. eauto. }
  unfold lineWidthAt, _getMaxLineWidth, tui_util.map, tui_util.max.
  apply (in_map (fun g' => _calculateLegendsWidthSum this g' labelTheme)) in Hg.
  destruct (List.map _ (_divideLegendLabels labels k)) as [|x rest];
    [contradiction|].
  eexists. split; [reflexivity|].
  destruct (fold_max_greatest rest x) as [_ Hall].
  rewrite Forall_forall in Hall. specialize (Hall _ Hg). lia.
Qed.

(** The loop always hands a result to its caller. *)
Lemma makeDividedLabelsAndMaxLineWidth_total :
  exists r : DividedLabelsAndMaxLineWidth,
    _makeDividedLabelsAndMaxLineWidth maxOfEmpty this labels chartWidth labelTheme =
    Some r.
Proof.
  destruct do_while_terminates as (final & Hfinal & _).
  eexists. eapply makeDividedLabelsAndMaxLineWidth_run. exact Hfinal.
Qed.

End LoopProperties.

Section PartitioningLoop.

Context {LabelTheme : Type}.
Context {chartConst : ChartConst}.
Context {renderUtil : RenderUtil LabelTheme}.
Variable maxOfEmpty : number.
Variable this : LegendDimensionModel LabelTheme.
Variable labels : list Label.
Variable chartWidth : Z.
Variable labelTheme : LabelTheme.

(** C1: when a round of the loop starts at division count [k + 1] (so the
    round at [k] ran before it) and the maximum line width it computes
    equals the one computed at [k], the round ends in [break] and
    [_makeDividedLabelsAndMaxLineWidth] returns the partitioning of
    division count [k] with that repeated width, whether or not the width
    is still at least the chart width. *)
Theorem makeDividedLabelsAndMaxLineWidth_converges
    (st : loop_state) (k : positive) :
  loop_reaches maxOfEmpty this labels chartWidth labelTheme st ->
  divideCount st = Pos.succ k ->
  lineWidthAt maxOfEmpty this labels labelTheme (Pos.succ k) =
  lineWidthAt maxOfEmpty this labels labelTheme k ->
  fst (loop_body maxOfEmpty this labels chartWidth labelTheme st) = Broke /\
  _makeDividedLabelsAndMaxLineWidth maxOfEmpty this labels chartWidth labelTheme =
  Some {| res_dividedLabels := Some (_divideLegendLabels labels k);
          res_maxLineWidth := lineWidthAt maxOfEmpty this labels labelTheme k |}.
Proof.
  intros Hreach Hcount Hsame.
  destruct (loop_reaches_invariant Hreach)
    as [(H1 & _) | (k' & Hk' & Hprev & Hlabels)].
  { rewrite H1 in Hcount. lia. }
  assert (k' = k) as -> by (rewrite Hk' in Hcount; now apply Pos.succ_inj).
  assert (Hbody :
    loop_body maxOfEmpty this labels chartWidth labelTheme st =
    (Broke,
     {| divideCount := divideCount st;
        maxLineWidth := lineWidthAt maxOfEmpty this labels labelTheme (divideCount st);
        prevMaxWidth := prevMaxWidth st;
        dividedLabels := prevLabels st;
        prevLabels := prevLabels st |})).
  { apply loop_body_break. now rewrite Hprev, Hcount, Hsame. }
  split; [now rewrite Hbody|].
  destruct (@loop_reaches_run _ _ _ maxOfEmpty this labels chartWidth labelTheme
              st Hreach 1%nat
              {| divideCount := divideCount st;
                 maxLineWidth := lineWidthAt maxOfEmpty this labels labelTheme (divideCount st);
                 prevMaxWidth := prevMaxWidth st;
                 dividedLabels := prevLabels st;
                 prevLabels := prevLabels st |}) as (fuel & Hrun).
  { cbn [do_while]. now rewrite Hbody. }
  erewrite makeDividedLabelsAndMaxLineWidth_run by exact Hrun. cbn.
  now rewrite Hlabels, Hcount, Hsame.
Qed.

(** C2 (amended): for every label sequence and every chart width, zero and
    negative ones included, the loop is left within the rounds the model
    grants it, so [_makeDividedLabelsAndMaxLineWidth] returns a result, and
    granting more rounds gives the same final state; no round starts at a
    division count above [max (length labels) 1 + 1]. *)
Theorem makeDividedLabelsAndMaxLineWidth_terminates :
  (exists r : DividedLabelsAndMaxLineWidth,
     _makeDividedLabelsAndMaxLineWidth maxOfEmpty this labels chartWidth labelTheme =
     Some r) /\
  (exists final : loop_state,
     forall extra : nat,
       do_while maxOfEmpty this (loop_fuel labels + extra) labels chartWidth
         labelTheme loop_init = Some final) /\
  (forall st : loop_state,
     loop_reaches maxOfEmpty this labels chartWidth labelTheme st ->
     Z.pos (divideCount st) <= Z.max (Z.of_nat (List.length labels)) 1 + 1).
Proof.
  destruct (@do_while_terminates _ _ _ maxOfEmpty this labels chartWidth labelTheme)
    as (final & Hfinal & _).
  repeat split.
  - eexists. eapply makeDividedLabelsAndMaxLineWidth_run. exact Hfinal.
  - exists final. intros extra. now apply do_while_more_fuel.
  - intros st Hreach. apply loop_reaches_bound in Hreach.
    unfold lastCount in Hreach.
    destruct labels as [|l ls]; [cbn in *; lia|].
    assert (Z.pos (Pos.of_nat (List.length (l :: ls))) =
            Z.of_nat (List.length (l :: ls)))
      by (rewrite <- positive_nat_Z, Nat2Pos.id; [reflexivity | discriminate]).
    cbn [List.length] in *. lia.
Qed.

(** C5 (amended): for an empty label sequence [_divideLegendLabels] yields
    no group at all, whatever the division count, and
    [_makeDividedLabelsAndMaxLineWidth] returns as [maxLineWidth] the value
    of [tui.util.max] on an empty array, with that empty list of groups as
    [dividedLabels] (with [undefined] in case the value is [0], the very
    first round then ending in [break]); this for every chart width. *)
Theorem makeDividedLabelsAndMaxLineWidth_empty (count : positive) :
  _divideLegendLabels [] count = [] /\
  _makeDividedLabelsAndMaxLineWidth maxOfEmpty this [] chartWidth labelTheme =
  Some {| res_dividedLabels :=
            if number_eqb (Num 0) maxOfEmpty then None else Some [];
          res_maxLineWidth := maxOfEmpty |}.
Proof.
  split; [reflexivity|].
  unfold _makeDividedLabelsAndMaxLineWidth, loop_fuel.
  cbn [List.length do_while]. unfold loop_body at 1.
  change (_divideLegendLabels [] (divideCount loop_init)) with (@nil (list Label)).
  change (_getMaxLineWidth maxOfEmpty this [] labelTheme) with maxOfEmpty.
  cbn [prevMaxWidth loop_init].
  destruct (number_eqb (Num 0) maxOfEmpty) eqn:E0; [reflexivity|].
  destruct (number_geb maxOfEmpty (Num chartWidth)); [|reflexivity].
  unfold loop_body. cbn [divideCount prevMaxWidth prevLabels].
  change (_divideLegendLabels [] (Pos.succ (divideCount loop_init)))
    with (@nil (list Label)).
  change (_getMaxLineWidth maxOfEmpty this [] labelTheme) with maxOfEmpty.
  now rewrite number_eqb_refl.
Qed.

(** X2: a single label whose footprint is not [0] makes a line of its
    own, however narrow the chart is. *)
Theorem makeDividedLabelsAndMaxLineWidth_single (label : Label) :
  _makeLegendWidth this (getRenderedLabelWidth label labelTheme) <> 0 ->
  _makeDividedLabelsAndMaxLineWidth maxOfEmpty this [label] chartWidth labelTheme =
  Some {| res_dividedLabels := Some [[label]];
          res_maxLineWidth :=
            Num (_makeLegendWidth this (getRenderedLabelWidth label labelTheme)) |}.
Proof.
  intros Hne.
  set (f := _makeLegendWidth this (getRenderedLabelWidth label labelTheme)) in *.
  unfold _makeDividedLabelsAndMaxLineWidth, loop_fuel.
  cbn [List.length do_while]. unfold loop_body at 1.
  change (_divideLegendLabels [label] (divideCount loop_init)) with [[label]].
  change (_getMaxLineWidth maxOfEmpty this [[label]] labelTheme) with (Num f).
  cbn [prevMaxWidth loop_init number_eqb].
  destruct (Z.eqb_spec 0 f) as [E|_]; [congruence|].
  destruct (number_geb (Num f) (Num chartWidth)); [|reflexivity].
  unfold loop_body. cbn [divideCount prevMaxWidth prevLabels].
  change (_divideLegendLabels [label] (Pos.succ (divideCount loop_init)))
    with [[label]].
  change (_getMaxLineWidth maxOfEmpty this [[label]] labelTheme) with (Num f).
  now rewrite number_eqb_refl.
Qed.

End PartitioningLoop.

(** ** The footprint of a label and the two layouts *)

Section Dimensions.

Context {LabelTheme : Type}.
Context {chartConst : ChartConst}.
Context {renderUtil : RenderUtil LabelTheme}.
Context {predicate : Predicate}.
Variable maxOfEmpty : number.

(** C8: the footprint of a label is its measured text width plus the
    checkbox width plus the three constants [LEGEND_RECT_WIDTH],
    [LEGEND_LABEL_LEFT_PADDING] and [LEGEND_AREA_PADDING]; the checkbox
    width set by [init] is [0] when [hasCheckbox] is [false] and
    [LEGEND_CHECKBOX_WIDTH] when it is [true] or absent. *)
Theorem makeLegendWidth_footprint (params : Params LabelTheme)
    (label : Label) (labelTheme : LabelTheme) :
  _makeLegendWidth (init params) (getRenderedLabelWidth label labelTheme) =
  getRenderedLabelWidth label labelTheme +
  match hasCheckbox (params_options params) with
  | Some false => 0
  | Some true => LEGEND_CHECKBOX_WIDTH
  | None => LEGEND_CHECKBOX_WIDTH
  end +
  LEGEND_RECT_WIDTH + LEGEND_LABEL_LEFT_PADDING + LEGEND_AREA_PADDING.
Proof.
  unfold _makeLegendWidth, init. cbn [legendCheckboxWidth].
  now destruct (hasCheckbox (params_options params)) as [[|]|].
Qed.

Variable this : LegendDimensionModel LabelTheme.

(** The modelled [getRenderedLabelsMaxWidth] is the width of one of the
    labels, and no label is wider. *)
Lemma getRenderedLabelsMaxWidth_greatest (labels : list Label)
    (labelTheme : LabelTheme) :
  labels <> [] ->
  exists widest : Label,
    In widest labels /\
    getRenderedLabelsMaxWidth labels labelTheme =
      getRenderedLabelWidth widest labelTheme /\
    forall label : Label,
      In label labels ->
      getRenderedLabelWidth label labelTheme <=
      getRenderedLabelWidth widest labelTheme.
Proof.
  intros Hne. unfold getRenderedLabelsMaxWidth.
  destruct labels as [|l rest]; [congruence|].
  set (w := fun l0 : Label => getRenderedLabelWidth l0 labelTheme).
  destruct (fold_max_greatest (List.map w rest) (w l)) as [Hin Hall].
  change (w l :: List.map w rest) with (List.map w (l :: rest)) in Hin, Hall.
  apply in_map_iff in Hin. destruct Hin as (widest & Hw & Hin).
  exists widest. split; [exact Hin|]. split.
  - fold (w l). fold (w widest). now rewrite Hw.
  - intros label Hlabel. fold (w label). fold (w widest). rewrite Hw.
    rewrite Forall_forall in Hall.
    exact (Hall (w label) (in_map w _ _ Hlabel)).
Qed.

(** C9: the vertical layout has height [0] for every label sequence, and
    for a sequence of at least one label its width is the footprint of a
    label of the sequence that no other label's footprint exceeds. *)
Theorem makeVerticalDimension_widest :
  height (_makeVerticalDimension this) = Some (Num 0) /\
  (legendLabels this <> [] ->
   exists widest : Label,
     In widest (legendLabels this) /\
     width (_makeVerticalDimension this) =
       Some (Num (_makeLegendWidth this
                    (getRenderedLabelWidth widest (theme_label (theme this))))) /\
     forall label : Label,
       In label (legendLabels this) ->
       _makeLegendWidth this
         (getRenderedLabelWidth label (theme_label (theme this))) <=
       _makeLegendWidth this
         (getRenderedLabelWidth widest (theme_label (theme this)))).
Proof.
  split; [reflexivity|]. intros Hne.
  destruct (getRenderedLabelsMaxWidth_greatest (theme_label (theme this)) Hne)
    as (widest & Hin & Hmax & Hle).
  exists widest. split; [exact Hin|]. split.
  - unfold _makeVerticalDimension. cbn [width]. now rewrite Hmax.
  - intros label Hlabel. specialize (Hle label Hlabel).
    unfold _makeLegendWidth. lia.
Qed.

(** The horizontal layout always returns an object, with both fields. *)
Lemma makeHorizontalDimension_fields (chartWidth : Z) :
  exists w h : number,
    _makeHorizontalDimension maxOfEmpty this chartWidth =
    Some {| width := Some w; height := Some h |}.
Proof.
  destruct (makeDividedLabelsAndMaxLineWidth_total maxOfEmpty this
              (legendLabels this) chartWidth (theme_label (theme this)))
    as (r & Hr).
  unfold _makeHorizontalDimension. rewrite Hr. eauto.
Qed.

(** C10: the horizontal layout takes the result of the partitioning loop;
    its width is that result's [maxLineWidth] and its height the sum, over
    the line groups of that result, of the greatest rendered label height
    of the group, plus [LEGEND_AREA_PADDING * 2]. *)
Theorem makeHorizontalDimension_height (chartWidth : Z) :
  exists r : DividedLabelsAndMaxLineWidth,
    _makeDividedLabelsAndMaxLineWidth maxOfEmpty this (legendLabels this)
      chartWidth (theme_label (theme this)) = Some r /\
    _makeHorizontalDimension maxOfEmpty this chartWidth =
    Some {| width := Some (res_maxLineWidth r);
            height := Some (Num (
              sum_of_line_heights
                (match res_dividedLabels r with
                 | Some groups => groups
                 | None => []
                 end) (theme_label (theme this)) +
              LEGEND_AREA_PADDING * 2)) |}.
Proof.
  destruct (makeDividedLabelsAndMaxLineWidth_total maxOfEmpty this
              (legendLabels this) chartWidth (theme_label (theme this)))
    as (r & Hr).
  exists r. split; [exact Hr|].
  unfold _makeHorizontalDimension. rewrite Hr. do 4 f_equal.
  unfold _calculateHorizontalLegendHeight. rewrite sum_fold_right.
  unfold sum_of_line_heights, tui_util.map.
  destruct (res_dividedLabels r) as [groups|]; [|reflexivity].
  now rewrite fold_right_add_map.
Qed.

(** The skip test, spelled out. *)
Lemma isSkipLegend_spec :
  _isSkipLegend this = true <->
  (Forall (fun chartType => isPieTypeChart chartType = true) (chartTypes this) /\
   isPieLegendAlign (align (options this)) = true) \/
  hidden (options this) = Some true.
Proof.
  unfold _isSkipLegend, tui_util.all, truthy.
  rewrite orb_true_iff, andb_true_iff, forallb_forall, Forall_forall.
  destruct (hidden (options this)) as [[|]|]; intuition congruence.
Qed.

(** C6: [makeDimension] returns the object with [width = 0] and nothing
    else, the one it builds without any layout or measurement, exactly
    when every chart type is of the pie family and the alignment is a pie
    alignment, or [hidden] is set. *)
Theorem makeDimension_skip (chartWidth : Z) :
  makeDimension maxOfEmpty this chartWidth =
    Some {| width := Some (Num 0); height := None |} <->
  (Forall (fun chartType => isPieTypeChart chartType = true) (chartTypes this) /\
   isPieLegendAlign (align (options this)) = true) \/
  hidden (options this) = Some true.
Proof.
  rewrite <- isSkipLegend_spec. unfold makeDimension.
  destruct (_isSkipLegend this); [tauto|].
  split; [|discriminate]. intros H. exfalso.
  destruct (isHorizontalLegend (align (options this))).
  - destruct (makeHorizontalDimension_fields chartWidth) as (w & h & Hh).
    rewrite Hh in H. discriminate.
  - discriminate.
Qed.

(** C7: when the skip test holds, the object [makeDimension] returns has
    [width = 0] and no [height] field. *)
Theorem makeDimension_skip_height (chartWidth : Z) :
  _isSkipLegend this = true ->
  exists dimension : Dimension,
    makeDimension maxOfEmpty this chartWidth = Some dimension /\
    width dimension = Some (Num 0) /\
    height dimension = None.
Proof.
  intros Hskip. unfold makeDimension. rewrite Hskip.
  eexists. repeat split.
Qed.

(** X3: [makeDimension] returns an object for every model and every
    chart width. *)
Theorem makeDimension_total (chartWidth : Z) :
  exists dimension : Dimension,
    makeDimension maxOfEmpty this chartWidth = Some dimension.
Proof.
  unfold makeDimension.
  destruct (_isSkipLegend this); [eauto|].
  destruct (isHorizontalLegend (align (options this))); [|eauto].
  destruct (makeHorizontalDimension_fields chartWidth) as (w & h & Hh). eauto.
Qed.

(** X1: with at least one label and footprints that are all positive, the
    width [makeDimension] returns is [0] exactly when the skip test holds:
    no layout comes out with a width of [0]. *)
Theorem makeDimension_zero_width (chartWidth : Z) :
  legendLabels this <> [] ->
  (forall label : Label,
     In label (legendLabels this) ->
     0 < _makeLegendWidth this
           (getRenderedLabelWidth label (theme_label (theme this)))) ->
  (exists dimension : Dimension,
     makeDimension maxOfEmpty this chartWidth = Some dimension /\
     width dimension = Some (Num 0)) <->
  ((Forall (fun chartType => isPieTypeChart chartType = true) (chartTypes this) /\
    isPieLegendAlign (align (options this)) = true) \/
   hidden (options this) = Some true).
Proof.
  intros Hne Hpos. rewrite <- isSkipLegend_spec. unfold makeDimension.
  destruct (_isSkipLegend this).
  { split; [reflexivity|]. intros _. eexists. split; reflexivity. }
  split; [|discriminate]. intros (dimension & Hd & Hwidth). exfalso.
  destruct (isHorizontalLegend (align (options this))).
  - unfold _makeHorizontalDimension, _makeDividedLabelsAndMaxLineWidth in Hd.
    destruct (do_while _ _ _ _ _ _ loop_init) as [final|] eqn:Hrun;
      [|discriminate].
    injection Hd as <-. cbn in Hwidth.
    destruct (do_while_width _ _ _ _ _ _ _ Hrun) as (k & Hk).
    destruct (@lineWidthAt_positive _ _ _ maxOfEmpty this (legendLabels this)
                (theme_label (theme this)) k Hne Hpos) as (w & Hw & Hlt).
    rewrite Hk, Hw in Hwidth. injection Hwidth as ->. lia.
  - injection Hd as <-. cbn in Hwidth. injection Hwidth as Hzero.
    destruct (getRenderedLabelsMaxWidth_greatest (theme_label (theme this)) Hne)
      as (widest & Hin & Hmax & _).
    specialize (Hpos widest Hin). rewrite Hmax in Hzero. lia.
Qed.

End Dimensions.

(** ** More on the division: one line, one label a line, the empty group *)

Section DivisionShapes.

(** While the open group and the labels to come fit the target size
    together, every label joins the open group. *)
Lemma divide_step_fill (limitCount : Z) (rest : list Label) :
  forall (results : list (list Label)) (temp : list Label),
    Z.of_nat (List.length temp + List.length rest) <= limitCount ->
    fold_left (divide_step limitCount) rest (results, temp) =
    (results, temp ++ rest).
Proof.
  induction rest as [|l rest IH]; intros results temp Hfit; cbn [fold_left].
  - now rewrite app_nil_r.
  - unfold divide_step at 2.
    destruct (Z.ltb_spec (Z.of_nat (List.length temp)) limitCount) as [_|Hge].
    + rewrite IH.
      * now rewrite <- app_assoc.
      * rewrite length_app. cbn [List.length] in *. lia.
    + cbn [List.length] in Hfit. lia.
Qed.

(** With a target size of at most one and a label in the open group,
    every further label closes the open group and opens its own. *)
Lemma divide_step_singletons (limitCount : Z) (rest : list Label) :
  limitCount <= 1 ->
  forall (results : list (list Label)) (x : Label),
    snd (fold_left (divide_step limitCount) rest (results, [x])) <> [] /\
    fst (fold_left (divide_step limitCount) rest (results, [x])) ++
    [snd (fold_left (divide_step limitCount) rest (results, [x]))] =
    results ++ List.map (fun l => [l]) (x :: rest).
Proof.
  intros Hlim. induction rest as [|l rest IH]; intros results x;
    cbn [fold_left].
  - cbn. split; [discriminate | reflexivity].
  - unfold divide_step at 2 4 6.
    destruct (Z.ltb_spec (Z.of_nat (List.length [x])) limitCount) as [Hlt|_].
    + cbn [List.length] in Hlt. lia.
    + destruct (IH (results ++ [[x]]) l) as [Hne Heq].
      split; [exact Hne|]. rewrite Heq. now rewrite <- app_assoc.
Qed.

Lemma divideLegendLabels_one (labels : list Label) :
  labels <> [] -> _divideLegendLabels labels 1 = [labels].
Proof.
  intros Hne. rewrite divideLegendLabels_unfold. cbv zeta.
  rewrite divide_step_fill.
  - cbn [fst snd app]. destruct labels; [congruence | reflexivity].
  - rewrite limitCount_of_quotient. cbn [List.length Nat.add].
    apply Z.div_le_lower_bound; lia.
Qed.

(** X9: with a division count [k] such that [2 * len / 3 < k <= 2 * len]
    the target size is one and [_divideLegendLabels] puts every label in a
    group of its own, in order. *)
Theorem divideLegendLabels_singletons (labels : list Label) (count : positive) :
  Z.pos count <= 2 * Z.of_nat (List.length labels) ->
  2 * Z.of_nat (List.length labels) < 3 * Z.pos count ->
  _divideLegendLabels labels count = List.map (fun label => [label]) labels.
Proof.
  intros Hle Hlt.
  assert (Hlim : limitCount_of labels count = 1).
  { rewrite limitCount_of_quotient. symmetry.
    apply Z.div_unique
      with (r := 2 * Z.of_nat (List.length labels) - Z.pos count); lia. }
  rewrite divideLegendLabels_unfold, Hlim. cbv zeta.
  destruct labels as [|l rest]; [reflexivity|].
  cbn [fold_left].
  change (divide_step 1 ([], []) l) with (@nil (list Label), [l]).
  destruct (@divide_step_singletons 1 rest (Z.le_refl 1) [] l) as [Hne Heq].
  destruct (snd (fold_left (divide_step 1) rest ([], [l]))) as [|t temp];
    [congruence | exact Heq].
Qed.

(** X10: with a division count above twice the number of labels the target
    size is zero and [_divideLegendLabels] returns an empty group followed
    by one group for every label. *)
Theorem divideLegendLabels_empty_group (labels : list Label) (count : positive) :
  labels <> [] ->
  2 * Z.of_nat (List.length labels) < Z.pos count ->
  _divideLegendLabels labels count =
  [] :: List.map (fun label => [label]) labels.
Proof.
  intros Hne Hlt.
  assert (Hlim : limitCount_of labels count = 0).
  { rewrite limitCount_of_quotient. apply Z.div_small. lia. }
  rewrite divideLegendLabels_unfold, Hlim. cbv zeta.
  destruct labels as [|l rest]; [congruence|].
  cbn [fold_left].
  change (divide_step 0 ([], []) l) with ([@nil Label], [l]).
  assert (H0 : 0 <= 1) by lia.
  destruct (@divide_step_singletons 0 rest H0 [[]] l) as [Hne' Heq].
  destruct (snd (fold_left (divide_step 0) rest ([[]], [l]))) as [|t temp];
    [congruence | exact Heq].
Qed.

End DivisionShapes.

(** ** The width of a line *)

Section LineWidths.

Context {LabelTheme : Type}.
Context {chartConst : ChartConst}.
Context {renderUtil : RenderUtil LabelTheme}.
Variable this : LegendDimensionModel LabelTheme.
Variable labelTheme : LabelTheme.

#[local] Abbreviation footprint label :=
  (_makeLegendWidth this (getRenderedLabelWidth label labelTheme)).
#[local] Abbreviation lineWidth labels :=
  (_calculateLegendsWidthSum this labels labelTheme).

Lemma calculateLegendsWidthSum_cons (label : Label) (labels : list Label) :
  lineWidth (label :: labels) = footprint label + lineWidth labels.
Proof.
  unfold _calculateLegendsWidthSum, tui_util.map.
  now rewrite !sum_fold_right.
Qed.

Lemma calculateLegendsWidthSum_app (front back : list Label) :
  lineWidth (front ++ back) = lineWidth front + lineWidth back.
Proof.
  induction front as [|l front IH].
  - reflexivity.
  - cbn [app]. rewrite !calculateLegendsWidthSum_cons, IH. lia.
Qed.

Lemma calculateLegendsWidthSum_nonneg (labels : list Label) :
  (forall label, In label labels -> 0 <= footprint label) ->
  0 <= lineWidth labels.
Proof.
  induction labels as [|l labels IH]; intros Hpos.
  - cbn. lia.
  - rewrite calculateLegendsWidthSum_cons.
    pose proof (Hpos l (or_introl eq_refl)).
    assert (0 <= lineWidth labels) by (apply IH; intros; apply Hpos; now right).
    lia.
Qed.

(** A label is no wider than the line it stands in. *)
Lemma footprint_le_line (label : Label) (labels : list Label) :
  (forall l, In l labels -> 0 <= footprint l) ->
  In label labels ->
  footprint label <= lineWidth labels.
Proof.
  intros Hpos Hin. apply in_split in Hin. destruct Hin as (front & back & ->).
  rewrite calculateLegendsWidthSum_app, calculateLegendsWidthSum_cons.
  assert (0 <= lineWidth front)
    by (apply calculateLegendsWidthSum_nonneg; intros; apply Hpos;
        apply in_or_app; now left).
  assert (0 <= lineWidth back)
    by (apply calculateLegendsWidthSum_nonneg; intros; apply Hpos;
        apply in_or_app; right; now right).
  lia.
Qed.

(** A line of a partitioning is no wider than all the labels in a row. *)
Lemma line_le_total (group : list Label) (groups : list (list Label)) :
  (forall l, In l (concat groups) -> 0 <= footprint l) ->
  In group groups ->
  lineWidth group <= lineWidth (concat groups).
Proof.
  intros Hpos Hin. apply in_split in Hin. destruct Hin as (front & back & ->).
  rewrite concat_app in *. cbn [concat] in *.
  rewrite !calculateLegendsWidthSum_app.
  assert (0 <= lineWidth (concat front))
    by (apply calculateLegendsWidthSum_nonneg; intros; apply Hpos;
        apply in_or_app; now left).
  assert (0 <= lineWidth (concat back))
    by (apply calculateLegendsWidthSum_nonneg; intros; apply Hpos;
        apply in_or_app; right; apply in_or_app; now right).
  lia.
Qed.

(** X4: the width of a line is the sum of the text widths of its labels
    plus, for every label, the checkbox width and the three layout
    constants: the overhead grows with the number of labels. *)
Theorem calculateLegendsWidthSum_overhead (labels : list Label) :
  _calculateLegendsWidthSum this labels labelTheme =
  fold_right Z.add 0
    (List.map (fun label => getRenderedLabelWidth label labelTheme) labels) +
  Z.of_nat (List.length labels) *
  (legendCheckboxWidth this + LEGEND_RECT_WIDTH +
   LEGEND_LABEL_LEFT_PADDING + LEGEND_AREA_PADDING).
Proof.
  induction labels as [|l labels IH].
  - reflexivity.
  - rewrite calculateLegendsWidthSum_cons, IH.
    cbn [List.map fold_right List.length]. unfold _makeLegendWidth. lia.
Qed.

End LineWidths.

(** ** What the loop returns *)

Section LoopResults.

Context {LabelTheme : Type}.
Context {chartConst : ChartConst}.
Context {renderUtil : RenderUtil LabelTheme}.
Variable maxOfEmpty : number.
Variable this : LegendDimensionModel LabelTheme.
Variable labels : list Label.
Variable chartWidth : Z.
Variable labelTheme : LabelTheme.

#[local] Abbreviation body := (loop_body maxOfEmpty this labels chartWidth labelTheme).
#[local] Abbreviation run fuel := (do_while maxOfEmpty this fuel labels chartWidth labelTheme).
#[local] Abbreviation invariant := (loop_invariant maxOfEmpty this labels labelTheme).
#[local] Abbreviation widthAt := (lineWidthAt maxOfEmpty this labels labelTheme).

Lemma loop_body_broke (st st' : loop_state) :
  body st = (Broke, st') ->
  prevMaxWidth st = widthAt (divideCount st) /\
  dividedLabels st' = prevLabels st /\
  maxLineWidth st' = widthAt (divideCount st).
Proof.
  unfold loop_body. fold (widthAt (divideCount st)).
  destruct (number_eqb (prevMaxWidth st) (widthAt (divideCount st))) eqn:E.
  - intros [= <-]. apply number_eqb_eq in E. cbn. auto.
  - destruct (number_geb (widthAt (divideCount st)) (Num chartWidth));
      discriminate.
Qed.

Lemma loop_body_leave (st st' : loop_state) :
  body st = (Leave, st') ->
  number_geb (widthAt (divideCount st)) (Num chartWidth) = false /\
  dividedLabels st' = Some (_divideLegendLabels labels (divideCount st)) /\
  maxLineWidth st' = widthAt (divideCount st).
Proof.
  unfold loop_body. fold (widthAt (divideCount st)).
  destruct (number_eqb (prevMaxWidth st) (widthAt (divideCount st))).
  - discriminate.
  - destruct (number_geb (widthAt (divideCount st)) (Num chartWidth)) eqn:G.
    + discriminate.
    + intros [= <-]. cbn. auto.
Qed.

(** The three ways the loop ends. *)
Lemma do_while_outcome (fuel : nat) :
  forall st r : loop_state,
    invariant st ->
    run fuel st = Some r ->
    (dividedLabels r = None /\ maxLineWidth r = Num 0 /\
     widthAt 1 = Num 0) \/
    (exists k : positive,
       dividedLabels r = Some (_divideLegendLabels labels k) /\
       maxLineWidth r = widthAt k /\
       widthAt (Pos.succ k) = widthAt k) \/
    (exists k : positive,
       dividedLabels r = Some (_divideLegendLabels labels k) /\
       maxLineWidth r = widthAt k /\
       number_geb (widthAt k) (Num chartWidth) = false).
Proof.
  induction fuel as [|fuel IH]; intros st r Hinv; cbn [do_while].
  - discriminate.
  - destruct (body st) as [[| |] st'] eqn:Hbody.
    + intros [= <-]. apply loop_body_broke in Hbody.
      destruct Hbody as (Hprev & Hdiv & Hmax).
      destruct Hinv as [(H1 & H0 & Hnone) | (k & Hk & Hprevk & Hlabels)].
      * left. rewrite Hdiv, Hmax, Hnone, <- Hprev, H0. repeat split.
        rewrite <- H1, <- Hprev. exact H0.
      * right. left. exists k.
        rewrite Hdiv, Hmax, Hlabels, <- Hprev, Hprevk. repeat split.
        rewrite <- Hk, <- Hprev. exact Hprevk.
    + apply IH. eapply loop_invariant_again; eauto.
    + intros [= <-]. apply loop_body_leave in Hbody.
      destruct Hbody as (Hgeb & Hdiv & Hmax).
      right. right. exists (divideCount st). auto.
Qed.

(** X5: [_makeDividedLabelsAndMaxLineWidth] returns one of three things:
    no partitioning and width [0], when the width of the first round is
    [0]; the partitioning of a division count whose width the next division
    count repeats; or the partitioning of a division count whose width is
    below the chart width. *)
Theorem makeDividedLabelsAndMaxLineWidth_outcome :
  exists r : DividedLabelsAndMaxLineWidth,
    _makeDividedLabelsAndMaxLineWidth maxOfEmpty this labels chartWidth labelTheme =
    Some r /\
    ((res_dividedLabels r = None /\ res_maxLineWidth r = Num 0 /\
      lineWidthAt maxOfEmpty this labels labelTheme 1 = Num 0) \/
     (exists k : positive,
        res_dividedLabels r = Some (_divideLegendLabels labels k) /\
        res_maxLineWidth r = lineWidthAt maxOfEmpty this labels labelTheme k /\
        lineWidthAt maxOfEmpty this labels labelTheme (Pos.succ k) =
        lineWidthAt maxOfEmpty this labels labelTheme k) \/
     (exists k : positive,
        res_dividedLabels r = Some (_divideLegendLabels labels k) /\
        res_maxLineWidth r = lineWidthAt maxOfEmpty this labels labelTheme k /\
        number_geb (lineWidthAt maxOfEmpty this labels labelTheme k)
          (Num chartWidth) = false)).
Proof.
  destruct (@do_while_terminates _ _ _ maxOfEmpty this labels chartWidth labelTheme)
    as (final & Hfinal & _).
  eexists. split.
  - eapply makeDividedLabelsAndMaxLineWidth_run. exact Hfinal.
  - cbn [res_dividedLabels res_maxLineWidth].
    eapply do_while_outcome; [|exact Hfinal].
    apply loop_invariant_init.
Qed.

(** X6: the partitioning [_makeDividedLabelsAndMaxLineWidth] returns, when
    there is one, holds all the labels in order, and the width returned
    with it is the width of its widest line; there is none exactly when
    the width of the first round is [0]. *)
Theorem makeDividedLabelsAndMaxLineWidth_consistent :
  exists r : DividedLabelsAndMaxLineWidth,
    _makeDividedLabelsAndMaxLineWidth maxOfEmpty this labels chartWidth labelTheme =
    Some r /\
    (res_dividedLabels r = None <->
     lineWidthAt maxOfEmpty this labels labelTheme 1 = Num 0) /\
    (forall groups : list (list Label),
       res_dividedLabels r = Some groups ->
       concat groups = labels /\
       res_maxLineWidth r = _getMaxLineWidth maxOfEmpty this groups labelTheme).
Proof.
  destruct (@do_while_terminates _ _ _ maxOfEmpty this labels chartWidth labelTheme)
    as (final & Hfinal & _).
  assert (Hinv : invariant loop_init) by apply loop_invariant_init.
  pose proof (do_while_outcome _ Hinv Hfinal) as Hout.
  eexists. split; [|split].
  - eapply makeDividedLabelsAndMaxLineWidth_run. exact Hfinal.
  - cbn [res_dividedLabels]. split.
    + intros Hnone.
      destruct Hout as [(_ & _ & H0) | [(k & Hk & _) | (k & Hk & _)]];
        [exact H0 | congruence | congruence].
    + intros H0. revert Hfinal. unfold loop_fuel. cbn [do_while].
      rewrite loop_body_break by (cbn [prevMaxWidth divideCount loop_init];
                                   now rewrite H0).
      now intros [= <-].
  - cbn [res_dividedLabels res_maxLineWidth]. intros groups Hgroups.
    destruct Hout as [(Hnone & _) | [(k & Hk & Hmax & _) | (k & Hk & Hmax & _)]].
    + congruence.
    + rewrite Hk in Hgroups. injection Hgroups as <-.
      split; [apply divideLegendLabels_concat | exact Hmax].
    + rewrite Hk in Hgroups. injection Hgroups as <-.
      split; [apply divideLegendLabels_concat | exact Hmax].
Qed.

(** When the labels in a row are narrower than the chart (and their width
    is not [0]), the loop stops after its first round and returns them as
    a single line with that width. *)
Lemma makeDividedLabelsAndMaxLineWidth_fits :
  labels <> [] ->
  _calculateLegendsWidthSum this labels labelTheme <> 0 ->
  _calculateLegendsWidthSum this labels labelTheme < chartWidth ->
  _makeDividedLabelsAndMaxLineWidth maxOfEmpty this labels chartWidth labelTheme =
  Some {| res_dividedLabels := Some [labels];
          res_maxLineWidth :=
            Num (_calculateLegendsWidthSum this labels labelTheme) |}.
Proof.
  intros Hne Hnz Hfit.
  unfold _makeDividedLabelsAndMaxLineWidth, loop_fuel. cbn [do_while].
  unfold loop_body. cbn [divideCount prevMaxWidth loop_init].
  rewrite (divideLegendLabels_one Hne).
  change (_getMaxLineWidth maxOfEmpty this [labels] labelTheme)
    with (Num (_calculateLegendsWidthSum this labels labelTheme)).
  cbn [number_eqb number_geb].
  destruct (Z.eqb_spec 0 (_calculateLegendsWidthSum this labels labelTheme));
    [congruence|].
  destruct (Z.geb_spec (_calculateLegendsWidthSum this labels labelTheme)
              chartWidth); [lia | reflexivity].
Qed.

(** With labels of non-negative footprints, the width computed at any
    division count lies between the widest footprint and the width of all
    the labels in a row. *)
Lemma lineWidthAt_bounds (k : positive) :
  labels <> [] ->
  (forall label : Label,
     In label labels ->
     0 <= _makeLegendWidth this (getRenderedLabelWidth label labelTheme)) ->
  exists w : Z,
    widthAt k = Num w /\
    (forall label : Label,
       In label labels ->
       _makeLegendWidth this (getRenderedLabelWidth label labelTheme) <= w) /\
    w <= _calculateLegendsWidthSum this labels labelTheme.
Proof.
  intros Hne Hpos.
  pose proof (divideLegendLabels_concat labels k) as Hconcat.
  set (groups := _divideLegendLabels labels k) in *.
  set (f := fun g : list Label => _calculateLegendsWidthSum this g labelTheme).
  assert (Hsub : forall g l, In g groups -> In l g -> In l labels).
  { intros g l Hg Hl. rewrite <- Hconcat. apply in_concat. eauto. }
  unfold lineWidthAt, _getMaxLineWidth, tui_util.map, tui_util.max.
  fold groups. fold f.
  destruct (List.map f groups) as [|x rest] eqn:Hmap.
  { destruct groups; [cbn in Hconcat; congruence | discriminate]. }
  destruct (fold_max_greatest rest x) as [Hin Hall].
  rewrite <- Hmap in Hin, Hall.
  eexists. split; [reflexivity|]. split.
  - intros label Hlabel.
    assert (Hl : In label (concat groups)) by now rewrite Hconcat.
    apply in_concat in Hl. destruct Hl as (g & Hg & Hl).
    rewrite Forall_forall in Hall.
    specialize (Hall (f g) (in_map f _ _ Hg)).
    assert (_makeLegendWidth this (getRenderedLabelWidth label labelTheme) <= f g).
    { apply footprint_le_line; [|exact Hl].
      intros l' Hl'. apply Hpos. eauto. }
    lia.
  - apply in_map_iff in Hin. destruct Hin as (g & Hg & Hin).
    rewrite <- Hg, <- Hconcat. apply line_le_total; [|exact Hin].
    intros l Hl. apply Hpos. now rewrite <- Hconcat.
Qed.

(** X8: for at least one label and non-negative footprints, the width
    [_makeDividedLabelsAndMaxLineWidth] returns is a number that is at
    least the footprint of every label and at most the width of all the
    labels in one line. *)
Theorem makeDividedLabelsAndMaxLineWidth_bounds :
  labels <> [] ->
  (forall label : Label,
     In label labels ->
     0 <= _makeLegendWidth this (getRenderedLabelWidth label labelTheme)) ->
  exists (r : DividedLabelsAndMaxLineWidth) (w : Z),
    _makeDividedLabelsAndMaxLineWidth maxOfEmpty this labels chartWidth labelTheme =
    Some r /\
    res_maxLineWidth r = Num w /\
    (forall label : Label,
       In label labels ->
       _makeLegendWidth this (getRenderedLabelWidth label labelTheme) <= w) /\
    w <= _calculateLegendsWidthSum this labels labelTheme.
Proof.
  intros Hne Hpos.
  destruct (@do_while_terminates _ _ _ maxOfEmpty this labels chartWidth labelTheme)
    as (final & Hfinal & _).
  assert (Hwidth : exists k : positive, maxLineWidth final = widthAt k)
    by (eapply do_while_width; exact Hfinal).
  destruct Hwidth as (k & Hk).
  destruct (lineWidthAt_bounds k Hne Hpos) as (w & Hw & Hlow & Hhigh).
  eexists. exists w. split.
  - eapply makeDividedLabelsAndMaxLineWidth_run. exact Hfinal.
  - cbn [res_maxLineWidth]. rewrite Hk, Hw. auto.
Qed.

End LoopResults.

Section ChartWidths.

Context {LabelTheme : Type}.
Context {chartConst : ChartConst}.
Context {renderUtil : RenderUtil LabelTheme}.
Context {predicate : Predicate}.
Variable maxOfEmpty : number.

Lemma number_geb_narrower (w : number) (narrow wide : Z) :
  narrow <= wide ->
  number_geb w (Num wide) = true -> number_geb w (Num narrow) = true.
Proof.
  intros Hle. destruct w as [|x]; cbn; [discriminate|].
  intros H. apply Z.geb_le in H. apply Z.geb_le. lia.
Qed.

(** X11: a narrower chart never ends the loop sooner: every round the
    loop starts for a chart width it also starts, in the same state, for
    any smaller chart width. *)
Theorem loop_reaches_narrower (this : LegendDimensionModel LabelTheme)
    (labels : list Label) (labelTheme : LabelTheme)
    (narrow wide : Z) (st : loop_state) :
  narrow <= wide ->
  loop_reaches maxOfEmpty this labels wide labelTheme st ->
  loop_reaches maxOfEmpty this labels narrow labelTheme st.
Proof.
  intros Hle. induction 1 as [|st st' _ IH Hbody].
  - apply reaches_init.
  - apply reaches_again with (st := st); [exact IH|].
    revert Hbody. unfold loop_body.
    destruct (number_eqb (prevMaxWidth st) _); [discriminate|].
    destruct (number_geb _ (Num wide)) eqn:G; [|discriminate].
    now rewrite (number_geb_narrower _ Hle G).
Qed.

(** No label: the first width is the maximum of nothing. *)
Lemma makeDividedLabelsAndMaxLineWidth_nil
    (this : LegendDimensionModel LabelTheme) (chartWidth : Z)
    (labelTheme : LabelTheme) :
  _makeDividedLabelsAndMaxLineWidth maxOfEmpty this [] chartWidth labelTheme =
  Some {| res_dividedLabels :=
            if number_eqb (Num 0) maxOfEmpty then None else Some [];
          res_maxLineWidth := maxOfEmpty |}.
Proof.
  unfold _makeDividedLabelsAndMaxLineWidth, loop_fuel.
  cbn [List.length do_while]. unfold loop_body at 1.
  change (_divideLegendLabels [] (divideCount loop_init)) with (@nil (list Label)).
  change (_getMaxLineWidth maxOfEmpty this [] labelTheme) with maxOfEmpty.
  cbn [prevMaxWidth loop_init].
  destruct (number_eqb (Num 0) maxOfEmpty) eqn:E0; [reflexivity|].
  destruct (number_geb maxOfEmpty (Num chartWidth)); [|reflexivity].
  unfold loop_body. cbn [divideCount prevMaxWidth prevLabels].
  change (_divideLegendLabels [] (Pos.succ (divideCount loop_init)))
    with (@nil (list Label)).
  change (_getMaxLineWidth maxOfEmpty this [] labelTheme) with maxOfEmpty.
  now rewrite number_eqb_refl.
Qed.

(** X12: a horizontal legend without labels is as high as its top and
    bottom padding, and as wide as [tui.util.max] makes an empty array. *)
Theorem makeHorizontalDimension_no_label
    (this : LegendDimensionModel LabelTheme) (chartWidth : Z) :
  legendLabels this = [] ->
  _makeHorizontalDimension maxOfEmpty this chartWidth =
  Some {| width := Some maxOfEmpty;
          height := Some (Num (LEGEND_AREA_PADDING * 2)) |}.
Proof.
  intros Hnil. unfold _makeHorizontalDimension.
  rewrite Hnil, makeDividedLabelsAndMaxLineWidth_nil.
  cbn [res_dividedLabels res_maxLineWidth].
  now destruct (number_eqb (Num 0) maxOfEmpty).
Qed.

(** X13: a model made by [init] without [chartTypes] is judged by its one
    [chartType]: [makeDimension] returns the object with only [width = 0]
    exactly when that chart type is of the pie family and the alignment is
    a pie alignment, or [hidden] is set. *)
Theorem makeDimension_init_chartType (params : Params LabelTheme)
    (chartWidth : Z) :
  params_chartTypes params = None ->
  makeDimension maxOfEmpty (init params) chartWidth =
    Some {| width := Some (Num 0); height := None |} <->
  (isPieTypeChart (params_chartType params) = true /\
   isPieLegendAlign (align (params_options params)) = true) \/
  hidden (params_options params) = Some true.
Proof.
  intros Hnone.
  assert (Hskip : _isSkipLegend (init params) = true <->
                  (isPieTypeChart (params_chartType params) = true /\
                   isPieLegendAlign (align (params_options params)) = true) \/
                  hidden (params_options params) = Some true).
  { unfold _isSkipLegend, init, tui_util.all, truthy.
    cbn [chartTypes options]. rewrite Hnone. cbn [forallb].
    rewrite andb_true_r, orb_true_iff, andb_true_iff.
    destruct (hidden (params_options params)) as [[|]|]; intuition congruence. }
  rewrite <- Hskip. unfold makeDimension.
  destruct (_isSkipLegend (init params)); [tauto|].
  split; [|discriminate]. intros H. exfalso.
  destruct (isHorizontalLegend (align (options (init params)))).
  - destruct (makeHorizontalDimension_fields maxOfEmpty (init params) chartWidth)
      as (w & h & Hh).
    rewrite Hh in H. discriminate.
  - discriminate.
Qed.

(** X7: when the labels of the model, all in a row, are narrower than the
    chart (and their width is not [0]), the partitioning is that single
    line, the horizontal layout is as wide as the row and as high as its
    tallest label plus the top and bottom padding, and that is what
    [makeDimension] returns for a horizontal legend that is not skipped. *)
Theorem makeDimension_one_line (this : LegendDimensionModel LabelTheme)
    (chartWidth : Z) :
  legendLabels this <> [] ->
  _calculateLegendsWidthSum this (legendLabels this) (theme_label (theme this))
    <> 0 ->
  _calculateLegendsWidthSum this (legendLabels this) (theme_label (theme this))
    < chartWidth ->
  _makeDividedLabelsAndMaxLineWidth maxOfEmpty this (legendLabels this)
    chartWidth (theme_label (theme this)) =
  Some {| res_dividedLabels := Some [legendLabels this];
          res_maxLineWidth :=
            Num (_calculateLegendsWidthSum this (legendLabels this)
                   (theme_label (theme this))) |} /\
  _makeHorizontalDimension maxOfEmpty this chartWidth =
  Some {| width :=
            Some (Num (_calculateLegendsWidthSum this (legendLabels this)
                         (theme_label (theme this))));
          height :=
            Some (Num (getRenderedLabelsMaxHeight (legendLabels this)
                         (theme_label (theme this)) +
                       LEGEND_AREA_PADDING * 2)) |} /\
  (_isSkipLegend this = false ->
   isHorizontalLegend (align (options this)) = true ->
   makeDimension maxOfEmpty this chartWidth =
   _makeHorizontalDimension maxOfEmpty this chartWidth).
Proof.
  intros Hne Hnz Hfit.
  assert (Hline := @makeDividedLabelsAndMaxLineWidth_fits _ _ _ maxOfEmpty this
                      (legendLabels this) chartWidth (theme_label (theme this))
                      Hne Hnz Hfit).
  split; [exact Hline|]. split.
  - unfold _makeHorizontalDimension. rewrite Hline.
    cbn [res_dividedLabels res_maxLineWidth].
    unfold _calculateHorizontalLegendHeight, tui_util.map, tui_util.sum.
    reflexivity.
  - intros Hskip Hhor. unfold makeDimension. now rewrite Hskip, Hhor.
Qed.

End ChartWidths.

(** ** The lines the caller gets *)

(** With a target size of at least one no group is empty. *)
Lemma divideLegendLabels_nonempty_groups (labels : list Label) (count : positive) :
  Z.pos count <= 2 * Z.of_nat (List.length labels) ->
  Forall (fun group => group <> []) (_divideLegendLabels labels count).
Proof.
  intros Hcount.
  assert (Hlim : 1 <= limitCount_of labels count) by now apply limitCount_of_pos.
  assert (Hnil : Forall (fun g : list Label =>
                           Z.of_nat (List.length g) = limitCount_of labels count) [])
    by constructor.
  assert (Hzero : Z.of_nat (List.length (@nil Label)) <= limitCount_of labels count)
    by (change (0 <= limitCount_of labels count); lia).
  destruct (@divide_step_groups (limitCount_of labels count) labels Hlim [] []
              Hnil Hzero) as (Hfull & _ & _).
  assert (Hfront : Forall (fun group : list Label => group <> [])
                     (fst (fold_left (divide_step (limitCount_of labels count))
                             labels ([], [])))).
  { eapply Forall_impl; [|exact Hfull].
    intros g Hg ->. change (0 = limitCount_of labels count) in Hg. lia. }
  rewrite divideLegendLabels_unfold. cbv zeta.
  destruct (snd (fold_left _ labels ([], []))) as [|l temp]; [exact Hfront|].
  apply Forall_app. split; [exact Hfront|].
  constructor; [discriminate | constructor].
Qed.

Lemma length_concat_nonempty (groups : list (list Label)) :
  Forall (fun group => group <> []) groups ->
  (List.length groups <= List.length (concat groups))%nat.
Proof.
  induction 1 as [|g groups Hg _ IH]; cbn [concat List.length].
  - lia.
  - rewrite length_app. destruct g; [congruence | cbn [List.length]; lia].
Qed.

Section ReturnedLines.

Context {LabelTheme : Type}.
Context {chartConst : ChartConst}.
Context {renderUtil : RenderUtil LabelTheme}.
Variable maxOfEmpty : number.
Variable this : LegendDimensionModel LabelTheme.
Variable labels : list Label.
Variable chartWidth : Z.
Variable labelTheme : LabelTheme.

#[local] Abbreviation body := (loop_body maxOfEmpty this labels chartWidth labelTheme).
#[local] Abbreviation run fuel := (do_while maxOfEmpty this fuel labels chartWidth labelTheme).
#[local] Abbreviation reaches := (loop_reaches maxOfEmpty this labels chartWidth labelTheme).

(** The partitioning the loop ends with is that of a division count below
    the last one. *)
Lemma do_while_outcome_count (fuel : nat) :
  forall st r : loop_state,
    reaches st ->
    run fuel st = Some r ->
    dividedLabels r = None \/
    exists k : positive,
      dividedLabels r = Some (_divideLegendLabels labels k) /\
      (Pos.succ k <= lastCount labels)%positive.
Proof.
  induction fuel as [|fuel IH]; intros st r Hreach; cbn [do_while].
  - discriminate.
  - pose proof (loop_reaches_bound Hreach) as Hbound.
    pose proof (loop_reaches_invariant Hreach) as Hinv.
    destruct (body st) as [[| |] st'] eqn:Hbody.
    + intros [= <-]. apply loop_body_broke in Hbody.
      destruct Hbody as (_ & Hdiv & _). rewrite Hdiv.
      destruct Hinv as [(_ & _ & Hnone) | (k & Hk & _ & Hlabels)].
      * now left.
      * right. exists k. split; [exact Hlabels|]. now rewrite <- Hk.
    + apply IH. eapply reaches_again; eauto.
    + intros [= <-].
      assert (Hneq : divideCount st <> lastCount labels).
      { intros E. pose proof (loop_body_lastCount chartWidth Hinv E) as HB.
        rewrite Hbody in HB. discriminate. }
      apply loop_body_leave in Hbody. destruct Hbody as (_ & Hdiv & _).
      right. exists (divideCount st). split; [exact Hdiv | lia].
Qed.

(** X14: the partitioning [_makeDividedLabelsAndMaxLineWidth] returns has
    no empty line and no more lines than there are labels: the empty group
    a target size of zero gives never reaches the caller. *)
Theorem makeDividedLabelsAndMaxLineWidth_lines :
  exists r : DividedLabelsAndMaxLineWidth,
    _makeDividedLabelsAndMaxLineWidth maxOfEmpty this labels chartWidth labelTheme =
    Some r /\
    forall groups : list (list Label),
      res_dividedLabels r = Some groups ->
      Forall (fun group => group <> []) groups /\
      (List.length groups <= List.length labels)%nat.
Proof.
  destruct (@do_while_terminates _ _ _ maxOfEmpty this labels chartWidth labelTheme)
    as (final & Hfinal & _).
  assert (Hinit : reaches loop_init) by apply reaches_init.
  pose proof (do_while_outcome_count _ Hinit Hfinal) as Hout.
  eexists. split.
  - eapply makeDividedLabelsAndMaxLineWidth_run. exact Hfinal.
  - cbn [res_dividedLabels]. intros groups Hgroups.
    destruct Hout as [Hnone | (k & Hk & Hle)]; [congruence|].
    rewrite Hk in Hgroups. injection Hgroups as <-.
    assert (Hall : Forall (fun group : list Label => group <> [])
                     (_divideLegendLabels labels k)).
    { destruct labels as [|l ls] eqn:El; [constructor|].
      rewrite <- El in *. apply divideLegendLabels_nonempty_groups.
      unfold lastCount in Hle.
      assert (Z.pos (Pos.of_nat (List.length labels)) =
              Z.of_nat (List.length labels))
        by (rewrite <- positive_nat_Z, Nat2Pos.id;
            [reflexivity | rewrite El; discriminate]).
      assert (1 <= Z.of_nat (List.length labels))
        by (rewrite El; cbn [List.length]; lia).
      lia. }
    split; [exact Hall|].
    apply length_concat_nonempty in Hall.
    now rewrite divideLegendLabels_concat in Hall.
Qed.

End ReturnedLines.

(** ** Worked examples *)

Import Examples.

#[local] Existing Instance example_const.
#[local] Existing Instance example_predicate.

(** The three-label example of the specification: widths 100, 60 and 60 at
    division counts 1, 2 and 3 against a chart width of 40; the loop stops
    in its third round and keeps the partitioning of count 2 with width 60,
    which is still at least 40. *)
Lemma makeDividedLabelsAndMaxLineWidth_converges_witness :
  lineWidthAt (renderUtil := example_render three_widths) NegInfinity
    (top_model three_labels) three_labels tt 1 = Num 100 /\
  lineWidthAt (renderUtil := example_render three_widths) NegInfinity
    (top_model three_labels) three_labels tt 2 = Num 60 /\
  lineWidthAt (renderUtil := example_render three_widths) NegInfinity
    (top_model three_labels) three_labels tt 3 = Num 60 /\
  number_geb (Num 60) (Num 40) = true /\
  _makeDividedLabelsAndMaxLineWidth (renderUtil := example_render three_widths)
    NegInfinity (top_model three_labels) three_labels 40 tt =
  Some {| res_dividedLabels := Some [["a"; "b"]; ["c"]]%string;
          res_maxLineWidth := Num 60 |}.
Proof.
  assert (Hreach :
    loop_reaches (renderUtil := example_render three_widths) NegInfinity
      (top_model three_labels) three_labels 40 tt three_round3).
  { apply reaches_again with (st := three_round2); [|reflexivity].
    apply reaches_again with (st := loop_init); [|reflexivity].
    apply reaches_init. }
  do 4 (split; [reflexivity|]).
  exact (proj2 (makeDividedLabelsAndMaxLineWidth_converges 2 Hreach
                  eq_refl eq_refl)).
Defined.

(** One label wider than the chart: the second round of the loop starts
    at division count 2, above the number of labels, and is the round that
    ends in [break]. *)
Lemma makeDividedLabelsAndMaxLineWidth_count_counterexample :
  loop_reaches (renderUtil := example_render wide_width) NegInfinity
    (top_model wide_label) wide_label 40 tt wide_round2 /\
  Z.pos (divideCount wide_round2) > Z.of_nat (List.length wide_label) /\
  fst (loop_body (renderUtil := example_render wide_width) NegInfinity
         (top_model wide_label) wide_label 40 tt wide_round2) = Broke.
Proof.
  split; [|split; reflexivity].
  apply reaches_again with (st := loop_init); [|reflexivity].
  apply reaches_init.
Qed.

(** Five labels in two divisions: target size 3, groups of 3 and 2. *)
Lemma divideLegendLabels_groups_witness :
  Z.pos 2 <= 2 * Z.of_nat (List.length five_labels) /\
  let limitCount := limitCount_of five_labels 2 in
  exists (front : list (list Label)) (last : list Label),
    _divideLegendLabels five_labels 2 = front ++ [last] /\
    concat (front ++ [last]) = five_labels /\
    Forall (fun g => Z.of_nat (List.length g) = limitCount) front /\
    1 <= Z.of_nat (List.length last) <= limitCount /\
    Z.of_nat (List.length (_divideLegendLabels five_labels 2)) =
      (Z.of_nat (List.length five_labels) + limitCount - 1) / limitCount /\
    (2%positive = 1%positive -> _divideLegendLabels five_labels 2 = [five_labels]).
Proof.
  assert (H : Z.pos 2 <= 2 * Z.of_nat (List.length five_labels))
    by (cbn; lia).
  split; [exact H|].
  exact (divideLegendLabels_groups five_labels H).
Defined.

(** Four labels in three divisions come out as four groups, one label in
    two divisions as one group, and no label as no group. *)
Lemma divideLegendLabels_count_counterexample :
  _divideLegendLabels four_labels 3 = [["a"]; ["b"]; ["c"]; ["d"]]%string /\
  List.length (_divideLegendLabels four_labels 3) <> 3%nat /\
  _divideLegendLabels wide_label 2 = [wide_label] /\
  _divideLegendLabels [] 1 = [].
Proof.
  repeat split. cbn. discriminate.
Qed.

(** No label: with [Math.max] for [tui.util.max] the result is no group and
    [-Infinity]; were the maximum of nothing [0], it would be [undefined]
    and [0]; and it is one empty group with [0] for no value at all. *)
Lemma makeDividedLabelsAndMaxLineWidth_empty_counterexample :
  _makeDividedLabelsAndMaxLineWidth (renderUtil := example_render [])
    NegInfinity (top_model []) [] 40 tt =
  Some {| res_dividedLabels := Some []; res_maxLineWidth := NegInfinity |} /\
  _makeDividedLabelsAndMaxLineWidth (renderUtil := example_render [])
    (Num 0) (top_model []) [] 40 tt =
  Some {| res_dividedLabels := None; res_maxLineWidth := Num 0 |} /\
  (forall maxOfEmpty : number,
     _makeDividedLabelsAndMaxLineWidth (renderUtil := example_render [])
       maxOfEmpty (top_model []) [] 40 tt <>
     Some {| res_dividedLabels := Some [[]]; res_maxLineWidth := Num 0 |}).
Proof.
  repeat split.
  intros maxOfEmpty.
  unfold _makeDividedLabelsAndMaxLineWidth, loop_fuel.
  cbn [List.length do_while]. unfold loop_body.
  change (_divideLegendLabels [] _) with (@nil (list Label)).
  change (_getMaxLineWidth maxOfEmpty (top_model []) [] tt) with maxOfEmpty.
  cbn [prevMaxWidth loop_init].
  destruct (number_eqb (Num 0) maxOfEmpty); [discriminate|].
  destruct (number_geb maxOfEmpty (Num 40)); [|discriminate].
  cbn [prevMaxWidth prevLabels divideCount].
  change (_divideLegendLabels [] _) with (@nil (list Label)).
  change (_getMaxLineWidth maxOfEmpty (top_model []) [] tt) with maxOfEmpty.
  destruct (number_eqb maxOfEmpty maxOfEmpty); discriminate.
Qed.

(** A hidden legend: the skip test holds and the object has no height. *)
Lemma makeDimension_skip_height_witness :
  _isSkipLegend (hidden_model three_labels) = true /\
  exists dimension : Dimension,
    makeDimension (renderUtil := example_render three_widths)
      NegInfinity
      (hidden_model three_labels) 40 = Some dimension /\
    width dimension = Some (Num 0) /\
    height dimension = None.
Proof.
  assert (H : _isSkipLegend (hidden_model three_labels) = true)
    by reflexivity.
  split; [exact H|].
  exact (makeDimension_skip_height (renderUtil := example_render three_widths)
           NegInfinity (hidden_model three_labels) 40 H).
Defined.

(** The vertical example of the specification: footprints 10, 15 and 22
    give a width of 22 and a height of 0. *)
Lemma makeVerticalDimension_widest_witness :
  legendLabels (right_model abc_labels) <> [] /\
  width (_makeVerticalDimension (renderUtil := example_render abc_widths)
           (right_model abc_labels)) = Some (Num 22) /\
  height (_makeVerticalDimension (renderUtil := example_render abc_widths)
            (right_model abc_labels)) = Some (Num 0).
Proof.
  assert (Hne : legendLabels (right_model abc_labels) <> []) by discriminate.
  split; [exact Hne|].
  destruct (makeVerticalDimension_widest
              (renderUtil := example_render abc_widths)
              (right_model abc_labels))
    as (Hheight & Hwidest).
  destruct (Hwidest Hne) as (widest & Hin & Hwidth & Hmax).
  split; [|exact Hheight].
  rewrite Hwidth.
  specialize (Hmax "CCC"%string (or_intror (or_intror (or_introl eq_refl)))).
  destruct Hin as [<-|[<-|[<-|[]]]].
  - exfalso. apply Hmax. reflexivity.
  - exfalso. apply Hmax. reflexivity.
  - reflexivity.
Defined.

(** One label of footprint 100 in a chart 40 wide keeps its single line. *)
Lemma makeDividedLabelsAndMaxLineWidth_single_witness :
  _makeLegendWidth (top_model wide_label)
    (getRenderedLabelWidth (RenderUtil := example_render wide_width)
       "wide"%string tt) <> 0 /\
  _makeDividedLabelsAndMaxLineWidth (renderUtil := example_render wide_width)
    NegInfinity (top_model wide_label) wide_label 40 tt =
  Some {| res_dividedLabels := Some [wide_label];
          res_maxLineWidth := Num 100 |}.
Proof.
  assert (H : _makeLegendWidth (top_model wide_label)
                (getRenderedLabelWidth (RenderUtil := example_render wide_width)
                   "wide"%string tt) <> 0) by discriminate.
  split; [exact H|].
  exact (makeDividedLabelsAndMaxLineWidth_single
           (renderUtil := example_render wide_width)
           NegInfinity (top_model wide_label) 40 tt "wide"%string H).
Defined.

(** The three labels on top of a bar chart: footprints 20, 20 and 60, no
    skip, and indeed no width of [0]. *)
Lemma makeDimension_zero_width_witness :
  legendLabels (top_model three_labels) <> [] /\
  (forall label : Label,
     In label (legendLabels (top_model three_labels)) ->
     0 < _makeLegendWidth (top_model three_labels)
           (getRenderedLabelWidth (RenderUtil := example_render three_widths)
              label tt)) /\
  ((exists dimension : Dimension,
      makeDimension (renderUtil := example_render three_widths) NegInfinity
        (top_model three_labels) 40 = Some dimension /\
      width dimension = Some (Num 0)) <->
   ((Forall (fun chartType => isPieTypeChart chartType = true)
       (chartTypes (top_model three_labels)) /\
     isPieLegendAlign (align (options (top_model three_labels))) = true) \/
    hidden (options (top_model three_labels)) = Some true)).
Proof.
  assert (Hne : legendLabels (top_model three_labels) <> []) by discriminate.
  assert (Hpos : forall label : Label,
             In label (legendLabels (top_model three_labels)) ->
             0 < _makeLegendWidth (top_model three_labels)
                   (getRenderedLabelWidth
                      (RenderUtil := example_render three_widths) label tt)).
  { intros label [<-|[<-|[<-|[]]]]; reflexivity. }
  split; [exact Hne|]. split; [exact Hpos|].
  exact (makeDimension_zero_width (renderUtil := example_render three_widths)
           NegInfinity (top_model three_labels) 40 Hne Hpos).
Defined.

(** The two skip cases and the two layouts on the examples. *)
Example makeDimension_examples :
  makeDimension (renderUtil := example_render three_widths)
    NegInfinity (hidden_model three_labels) 40 =
    Some {| width := Some (Num 0); height := None |} /\
  makeDimension (renderUtil := example_render three_widths)
    NegInfinity (pie_model three_labels) 40 =
    Some {| width := Some (Num 0); height := None |} /\
  makeDimension (renderUtil := example_render three_widths)
    NegInfinity (top_model three_labels) 40 =
    Some {| width := Some (Num 60); height := Some (Num 34) |} /\
  makeDimension (renderUtil := example_render abc_widths)
    NegInfinity (right_model abc_labels) 40 =
    Some {| width := Some (Num 22); height := Some (Num 0) |}.
Proof. repeat split. Qed.

(** Four labels at division count 3: the target size is one and every
    label stands alone. *)
Lemma divideLegendLabels_singletons_witness :
  Z.pos 3 <= 2 * Z.of_nat (List.length four_labels) /\
  2 * Z.of_nat (List.length four_labels) < 3 * Z.pos 3 /\
  _divideLegendLabels four_labels 3 = [["a"]; ["b"]; ["c"]; ["d"]]%string.
Proof.
  assert (Hle : Z.pos 3 <= 2 * Z.of_nat (List.length four_labels))
    by (cbn; lia).
  assert (Hlt : 2 * Z.of_nat (List.length four_labels) < 3 * Z.pos 3)
    by (cbn; lia).
  split; [exact Hle|]. split; [exact Hlt|].
  exact (divideLegendLabels_singletons four_labels Hle Hlt).
Defined.

(** Five labels at division count 11: the target size is zero and an
    empty group comes first. *)
Lemma divideLegendLabels_empty_group_witness :
  five_labels <> [] /\
  2 * Z.of_nat (List.length five_labels) < Z.pos 11 /\
  _divideLegendLabels five_labels 11 =
  [[]; ["a"]; ["b"]; ["c"]; ["d"]; ["e"]]%string.
Proof.
  assert (Hne : five_labels <> []) by discriminate.
  assert (Hlt : 2 * Z.of_nat (List.length five_labels) < Z.pos 11)
    by (cbn; lia).
  split; [exact Hne|]. split; [exact Hlt|].
  exact (divideLegendLabels_empty_group Hne Hlt).
Defined.

(** The three labels, 100 wide in a row, in a chart 200 wide. *)
Lemma makeDimension_one_line_witness :
  legendLabels (top_model three_labels) <> [] /\
  _calculateLegendsWidthSum (renderUtil := example_render three_widths)
    (top_model three_labels) three_labels tt = 100 /\
  _makeDividedLabelsAndMaxLineWidth (renderUtil := example_render three_widths)
    NegInfinity (top_model three_labels) three_labels 200 tt =
  Some {| res_dividedLabels := Some [three_labels];
          res_maxLineWidth := Num 100 |} /\
  makeDimension (renderUtil := example_render three_widths) NegInfinity
    (top_model three_labels) 200 =
  Some {| width := Some (Num 100); height := Some (Num 19) |}.
Proof.
  assert (Hne : legendLabels (top_model three_labels) <> []) by discriminate.
  assert (Hnz : _calculateLegendsWidthSum
                  (renderUtil := example_render three_widths)
                  (top_model three_labels)
                  (legendLabels (top_model three_labels))
                  (theme_label (theme (top_model three_labels))) <> 0)
    by discriminate.
  assert (Hfit : _calculateLegendsWidthSum
                   (renderUtil := example_render three_widths)
                   (top_model three_labels)
                   (legendLabels (top_model three_labels))
                   (theme_label (theme (top_model three_labels))) < 200)
    by reflexivity.
  destruct (makeDimension_one_line (renderUtil := example_render three_widths)
              NegInfinity (top_model three_labels) Hne Hnz Hfit)
    as (Hline & Hdim & Hmake).
  split; [exact Hne|]. split; [reflexivity|]. split; [exact Hline|].
  rewrite (Hmake eq_refl eq_refl). exact Hdim.
Defined.

(** The three labels in a chart 40 wide: the width returned, 60, lies
    between the widest footprint and the width of the row. *)
Lemma makeDividedLabelsAndMaxLineWidth_bounds_witness :
  three_labels <> [] /\
  exists (r : DividedLabelsAndMaxLineWidth) (w : Z),
    _makeDividedLabelsAndMaxLineWidth (renderUtil := example_render three_widths)
      NegInfinity (top_model three_labels) three_labels 40 tt = Some r /\
    res_maxLineWidth r = Num w /\
    (forall label : Label,
       In label three_labels ->
       _makeLegendWidth (top_model three_labels)
         (getRenderedLabelWidth (RenderUtil := example_render three_widths)
            label tt) <= w) /\
    w <= _calculateLegendsWidthSum (renderUtil := example_render three_widths)
           (top_model three_labels) three_labels tt.
Proof.
  assert (Hne : three_labels <> []) by discriminate.
  assert (Hpos : forall label : Label,
             In label three_labels ->
             0 <= _makeLegendWidth (top_model three_labels)
                    (getRenderedLabelWidth
                       (RenderUtil := example_render three_widths) label tt)).
  { intros label [<-|[<-|[<-|[]]]]; discriminate. }
  split; [exact Hne|].
  exact (makeDividedLabelsAndMaxLineWidth_bounds
           (renderUtil := example_render three_widths)
           NegInfinity (top_model three_labels) 40 tt Hne Hpos).
Defined.

(** The third round of the three-label example starts for a chart 40 wide,
    hence for one 30 wide. *)
Lemma loop_reaches_narrower_witness :
  30 <= 40 /\
  loop_reaches (renderUtil := example_render three_widths) NegInfinity
    (top_model three_labels) three_labels 40 tt three_round3 /\
  loop_reaches (renderUtil := example_render three_widths) NegInfinity
    (top_model three_labels) three_labels 30 tt three_round3.
Proof.
  assert (Hle : 30 <= 40) by discriminate.
  assert (Hreach :
    loop_reaches (renderUtil := example_render three_widths) NegInfinity
      (top_model three_labels) three_labels 40 tt three_round3).
  { apply reaches_again with (st := three_round2); [|reflexivity].
    apply reaches_again with (st := loop_init); [|reflexivity].
    apply reaches_init. }
  split; [exact Hle|]. split; [exact Hreach|].
  exact (loop_reaches_narrower Hle Hreach).
Defined.

(** A horizontal legend without labels, with [Math.max] for
    [tui.util.max]: as high as twice the padding, [-Infinity] wide. *)
Lemma makeHorizontalDimension_no_label_witness :
  legendLabels (top_model []) = [] /\
  _makeHorizontalDimension (renderUtil := example_render []) NegInfinity
    (top_model []) 40 =
  Some {| width := Some NegInfinity; height := Some (Num 4) |}.
Proof.
  assert (Hnil : legendLabels (top_model []) = []) by reflexivity.
  split; [exact Hnil|].
  exact (makeHorizontalDimension_no_label
           (renderUtil := example_render []) NegInfinity (top_model []) 40 Hnil).
Defined.

(** A pie chart made without [chartTypes], its legend in the centre. *)
Lemma makeDimension_init_chartType_witness :
  params_chartTypes
    (example_params "pie" (example_options "center" None) three_labels) = None /\
  (makeDimension (renderUtil := example_render three_widths) NegInfinity
     (init (example_params "pie" (example_options "center" None) three_labels))
     40 = Some {| width := Some (Num 0); height := None |} <->
   (isPieTypeChart "pie" = true /\
    isPieLegendAlign (Some "center"%string) = true) \/
   None = Some true).
Proof.
  assert (Hnone : params_chartTypes
                    (example_params "pie" (example_options "center" None)
                       three_labels) = None) by reflexivity.
  split; [exact Hnone|].
  exact (makeDimension_init_chartType
           (renderUtil := example_render three_widths) NegInfinity
           (example_params "pie" (example_options "center" None) three_labels)
           40 Hnone).
Defined.
